(** * ModelicaMatReader: a shallow embedding of [src/main.py]

    The reader class of the OpenModelica MAT viewer is embedded method by
    method.  Python strings are Rocq strings (code points below 256), the
    dictionary [self.values] is a [gmap string (list V)], numpy arrays are
    lists of rows, and an exception is a constructor of [result].  Samples
    are kept generic over the one operation the reader itself performs on
    them, subtraction, with the instance for binary64 floats (what Python
    computes with).  What the program calls and does not define, the
    deserializer [scio.loadmat] and numpy's reductions, enters as a
    parameter of the method that calls it. *)

From Stdlib Require Import Ascii String ZArith List Floats Lia.
From stdpp Require Import gmap strings list pretty.

Open Scope string_scope.

(** ** Python strings *)

Module PyStr.

(** [sub in s] for strings. *)
Fixpoint contains (sub s : string) : bool :=
  String.prefix sub s ||
  match s with
  | EmptyString => false
  | String _ rest => contains sub rest
  end.

(** [s.split(sep)] for a one-character separator. *)
Fixpoint split (sep : ascii) (s : string) : list string :=
  match s with
  | EmptyString => [EmptyString]
  | String a rest =>
      if Ascii.eqb a sep then EmptyString :: split sep rest
      else match split sep rest with
           | [] => [String a EmptyString]
           | part :: parts => String a part :: parts
           end
  end.

(** [str.isspace] on one character: TAB..CR, FS..US, space, NEL, NBSP. *)
Definition is_space (a : ascii) : bool :=
  let n := nat_of_ascii a in
  ((9 <=? n)%nat && (n <=? 13)%nat) || ((28 <=? n)%nat && (n <=? 32)%nat)
  || (n =? 133)%nat || (n =? 160)%nat.

Fixpoint lstrip (s : string) : string :=
  match s with
  | EmptyString => EmptyString
  | String a rest => if is_space a then lstrip rest else s
  end.

Fixpoint rstrip (s : string) : string :=
  match s with
  | EmptyString => EmptyString
  | String a rest =>
      match rstrip rest with
      | EmptyString => if is_space a then EmptyString else String a EmptyString
      | kept => String a kept
      end
  end.

(** [s.strip()] *)
Definition strip (s : string) : string := rstrip (lstrip s).

(** [str.lower] on one character: A..Z and the Latin-1 capitals. *)
Definition lower_char (a : ascii) : ascii :=
  let n := nat_of_ascii a in
  if ((65 <=? n)%nat && (n <=? 90)%nat)
     || ((192 <=? n)%nat && (n <=? 222)%nat && negb (n =? 215)%nat)
  then ascii_of_nat (n + 32) else a.

(** [s.lower()] *)
Fixpoint lower (s : string) : string :=
  match s with
  | EmptyString => EmptyString
  | String a rest => String (lower_char a) (lower rest)
  end.

(** [any(kw in s for kw in kws)] *)
Definition any_in (kws : list string) (s : string) : bool :=
  existsb (fun kw => contains kw s) kws.

End PyStr.

(** ** Exceptions *)

Inductive exn : Type :=
| KeyError (key : string)
| IndexError
| TypeError
| LoadError (msg : string).

Inductive result (A : Type) : Type :=
| Ok (a : A)
| Raise (e : exn).
Arguments Ok {A} a.
Arguments Raise {A} e.

#[export] Instance result_ret : MRet result := fun _ a => Ok a.
#[export] Instance result_bind : MBind result := fun _ _ f m =>
  match m with
  | Ok a => f a
  | Raise e => Raise e
  end.

(** [d[key]] on a dictionary entry that may be missing. *)
Definition getitem {A} (key : string) (entry : option A) : result A :=
  match entry with
  | Some a => Ok a
  | None => Raise (KeyError key)
  end.

(** [s[i]] on a string, for [i >= 0]. *)
Definition str_index (s : string) (i : nat) : result ascii :=
  match String.get i s with
  | Some c => Ok c
  | None => Raise IndexError
  end.

(** [l[i]] on a Python list, for [i >= 0]. *)
Definition list_index {A} (l : list A) (i : nat) : result A :=
  match l !! i with
  | Some x => Ok x
  | None => Raise IndexError
  end.

(** ** numpy arrays *)

Module Np.

(** [a[i]] on the first axis: the indices [-n .. n-1] are in range, a
    negative one counts from the end, any other raises IndexError. *)
Definition index {A} (a : list A) (i : Z) : result A :=
  let n := Z.of_nat (length a) in
  let j := if (i <? 0)%Z then (i + n)%Z else i in
  if ((0 <=? j)%Z && (j <? n)%Z)%bool
  then match a !! Z.to_nat j with
       | Some x => Ok x
       | None => Raise IndexError
       end
  else Raise IndexError.

(** All rows of a two-dimensional array have [n] entries. *)
Definition row_length {A} (m : list (list A)) (n : nat) : Prop :=
  Forall (fun row => length row = n) m.

End Np.

(** ** Samples

    What the reader itself does with two samples: it subtracts them, in
    the list comprehension of [_evaluate_expression]. *)

Class Sample (V : Type) : Type := {
  s_sub : V -> V -> V
}.

(** binary64, the samples of a loaded file: Python's [-] on two floats. *)
#[export] Instance float_sample : Sample float := {
  s_sub := PrimFloat.sub
}.

(** ** The reader *)

(** The dictionary returned by [scipy.io.loadmat], restricted to the four
    entries the reader looks at; [None] is a missing key.  [name] is the
    array of row strings (numpy drops trailing nulls, so the rows may differ
    in length), [dataInfo] an integer matrix, [data_1] and [data_2] the
    sample blocks. *)
Record raw (V : Type) : Type := {
  name : option (list string);
  dataInfo : option (list (list Z));
  data_1 : option (list (list V));
  data_2 : option (list (list V))
}.
Arguments name {V} _.
Arguments dataInfo {V} _.
Arguments data_1 {V} _.
Arguments data_2 {V} _.

(** The attributes of a [ModelicaMatReader]. *)
Record reader (V : Type) : Type := {
  file_path : option string;
  data : option (raw V);
  keys : list string;
  values : gmap string (list V);
  time_vector : list V
}.
Arguments file_path {V} _.
Arguments data {V} _.
Arguments keys {V} _.
Arguments values {V} _.
Arguments time_vector {V} _.

(** The dictionary returned by [get_variable_stats]. *)
Record stats (V : Type) : Type := {
  stat_min : V;
  stat_max : V;
  stat_mean : V;
  stat_std : V;
  stat_size : nat
}.
Arguments stat_min {V} _.
Arguments stat_max {V} _.
Arguments stat_mean {V} _.
Arguments stat_std {V} _.
Arguments stat_size {V} _.

Module ModelicaMatReader.
Section Reader.
Context {V : Type} `{Sample V}.

(** The external deserializer [scio.loadmat] and Python's [str] on an
    exception. *)
Variable loadmat : string -> result (raw V).
Variable exn_str : exn -> string.

(** [__init__] *)
Definition init : reader V :=
  {| file_path := None; data := None; keys := []; values := ∅;
     time_vector := [] |}.

Definition set_file_path (self : reader V) (p : string) : reader V :=
  {| file_path := Some p; data := data self; keys := keys self;
     values := values self; time_vector := time_vector self |}.

Definition set_data (self : reader V) (d : raw V) : reader V :=
  {| file_path := file_path self; data := Some d; keys := keys self;
     values := values self; time_vector := time_vector self |}.

Definition set_keys (self : reader V) (ks : list string) : reader V :=
  {| file_path := file_path self; data := data self; keys := ks;
     values := values self; time_vector := time_vector self |}.

Definition set_values (self : reader V) (vs : gmap string (list V)) : reader V :=
  {| file_path := file_path self; data := data self; keys := keys self;
     values := vs; time_vector := time_vector self |}.

Definition set_time_vector (self : reader V) (tv : list V) : reader V :=
  {| file_path := file_path self; data := data self; keys := keys self;
     values := values self; time_vector := tv |}.

(** [self.data[key]]: TypeError while nothing is loaded, KeyError when the
    file has no such entry. *)
Definition data_item {A} (self : reader V) (key : string)
    (field : raw V -> option A) : result A :=
  match data self with
  | None => Raise TypeError
  | Some d => getitem key (field d)
  end.

(** *** [_parse_keys_original] *)

(** The inner loop for column [xx], over the rows it still has to visit;
    every [break] returns the key built so far. *)
Fixpoint scan_rows (xx : nat) (rows : list string) (key : string) : string :=
  match rows with
  | [] => key
  | row :: rest =>
      if (String.length row <? xx)%nat then key
      else match str_index row xx with
           | Raise _ => key
           | Ok _k =>
               if Ascii.eqb _k "000"%char then key
               else scan_rows xx rest (key ++ String _k EmptyString)
           end
  end.

(** The rows visited by [range(len(name) - 1)]. *)
Definition visited_rows (nm : list string) : list string :=
  take (length nm - 1) nm.

(** The outer loop: one key appended per [xx] in [range(len(name[0]) - 1)];
    the range is empty when [name[0]] is the empty string. *)
Definition decode (nm : list string) (row0 : string) : list string :=
  fold_left (fun ks xx => (ks ++ [scan_rows xx (visited_rows nm) EmptyString])%list)
            (seq 0 (String.length row0 - 1)) [].

Definition _parse_keys_original (self : reader V) : result (reader V) :=
  nm ← data_item self "name" name;
  row0 ← Np.index nm 0;
  mret (set_keys self (decode nm row0)).

(** *** [_parse_values_original] *)

(** ["data_%s" % data_index] looked up in [self.data]. *)
Definition data_block (self : reader V) (data_index : Z) : result (list (list V)) :=
  if (data_index =? 1)%Z then data_item self "data_1" data_1
  else data_item self "data_2" data_2.

(** The body of the [try] for one index: [Ok (Some row)] when a row is
    stored, [Ok None] when the selector is neither 1 nor 2. *)
Definition resolve_entry (self : reader V) (index : nat) : result (option (list V)) :=
  info ← data_item self "dataInfo" dataInfo;
  selectors ← Np.index info 0;
  data_index ← list_index selectors index;
  rows ← Np.index info 1;
  row_index ← list_index rows index;
  let line_num := (row_index - 1)%Z in
  if ((data_index =? 1)%Z || (data_index =? 2)%Z)%bool then
    block ← data_block self data_index;
    dataV ← Np.index block line_num;
    mret (Some dataV)
  else mret None.

(** One iteration: an exception or a rejected selector leaves [values]
    as it is. *)
Definition resolve_step (self : reader V) (vals : gmap string (list V))
    (entry : nat * string) : gmap string (list V) :=
  match resolve_entry self entry.1 with
  | Ok (Some dataV) => <[entry.2 := dataV]> vals
  | Ok None => vals
  | Raise _ => vals
  end.

(** [enumerate(l)] *)
Definition enumerate {A} (l : list A) : list (nat * A) :=
  zip (seq 0 (length l)) l.

Definition resolve (self : reader V) : gmap string (list V) :=
  fold_left (resolve_step self) (enumerate (keys self)) ∅.

Definition _parse_values_original (self : reader V) : reader V :=
  set_values self (resolve self).

(** *** [_extract_time_original] *)

Definition _extract_time_original (self : reader V) : reader V :=
  match block ← data_item self "data_2" data_2; Np.index block 0 with
  | Ok row => set_time_vector self row
  | Raise _ => set_time_vector self []
  end.

(** *** [load_data] *)

Definition success_message (self : reader V) : string :=
  "成功加载 " ++ pretty (length (keys self)) ++ " 个变量".

Definition failure_message (e : exn) : string :=
  "加载失败: " ++ exn_str e.

(** The assignment to [self.file_path] precedes the [try]; the console
    output and the timing are left out. *)
Definition load_data (self : reader V) (path : string) : reader V * (bool * string) :=
  let self := set_file_path self path in
  match loadmat path with
  | Raise e => (self, (false, failure_message e))
  | Ok d =>
      let self := set_data self d in
      match _parse_keys_original self with
      | Raise e => (self, (false, failure_message e))
      | Ok self =>
          let self := _parse_values_original self in
          let self := _extract_time_original self in
          (self, (true, success_message self))
      end
  end.

(** *** [_is_expression] and [_evaluate_expression] *)

Definition operators : list string := ["+"; "-"; "*"; "/"; "("; ")"].

Definition _is_expression (key : string) : bool :=
  existsb (fun op => PyStr.contains op key) operators.

(** Truth value of a Python list. *)
Definition truthy {A} (l : list A) : bool :=
  match l with
  | [] => false
  | _ :: _ => true
  end.

(** [[_v1[i] - _v2[i] for i in range(len(_v1))]] *)
Definition difference (_v1 _v2 : list V) : result (list V) :=
  mapM (fun i => a ← list_index _v1 i; b ← list_index _v2 i; mret (s_sub a b))
       (seq 0 (length _v1)).

(** [self.values.get(key, [])] *)
Definition values_get (self : reader V) (key : string) : list V :=
  default [] (values self !! key).

(** The body of the [try]. *)
Definition evaluate_body (self : reader V) (expression : string) : result (list V) :=
  if (PyStr.contains "-" expression && PyStr.contains "[" expression)%bool then
    match PyStr.split "-"%char expression with
    | [part0; part1] =>
        let var1 := PyStr.strip part0 in
        let var2 := PyStr.strip part1 in
        let _v1 := values_get self var1 in
        let _v2 := values_get self var2 in
        if (truthy _v1 && truthy _v2 && (length _v1 =? length _v2)%nat)%bool
        then difference _v1 _v2
        else mret []
    | _ => mret []
    end
  else mret [].

Definition _evaluate_expression (self : reader V) (expression : string) : list V :=
  match evaluate_body self expression with
  | Ok v => v
  | Raise _ => []
  end.

(** *** [read_variables] *)

Definition read_one (self : reader V) (_rk : string) : list V :=
  if _is_expression _rk then _evaluate_expression self _rk
  else values_get self _rk.

Definition read_variables (self : reader V) (read_keys : list string)
    : list (list V) * list V :=
  (fold_left (fun rv _rk => (rv ++ [read_one self _rk])%list) read_keys [],
   time_vector self).

(** *** [get_variable_categories] *)

Definition electrical_keywords : list string :=
  ["voltage"; "current"; "power"; "v["; "i["; "p["; "volt"; "amp"; "dc"; "ac"].
Definition thermal_keywords : list string := ["temp"; "heat"; "cool"; "thermal"].
Definition mechanical_keywords : list string :=
  ["speed"; "torque"; "rpm"; "mechanical"; "omega"].
Definition control_keywords : list string :=
  ["control"; "ref"; "cmd"; "set"; "governor"].
Definition fault_keywords : list string := ["fault"; "error"; "alarm"; "trip"].

(** The branch of the [if]/[elif] chain taken for [key], named by the
    category whose list it appends to. *)
Definition category_of (key : string) : string :=
  let key_lower := PyStr.lower key in
  if PyStr.contains "time" key_lower then "time"
  else if PyStr.any_in electrical_keywords key_lower then "electrical"
  else if PyStr.any_in thermal_keywords key_lower then "thermal"
  else if PyStr.any_in mechanical_keywords key_lower then "mechanical"
  else if PyStr.any_in control_keywords key_lower then "control"
  else if PyStr.any_in fault_keywords key_lower then "fault"
  else "other".

Definition empty_categories : gmap string (list string) :=
  list_to_map
    [("electrical", []); ("thermal", []); ("mechanical", []); ("control", []);
     ("fault", []); ("time", []); ("other", [])].

(** [categories[c].append(key)] *)
Definition category_append (categories : gmap string (list string))
    (key : string) : gmap string (list string) :=
  alter (fun names => (names ++ [key])%list) (category_of key) categories.

Definition get_variable_categories (self : reader V) : gmap string (list string) :=
  fold_left category_append (keys self) empty_categories.

(** *** [search_variables] *)

Definition search_variables (self : reader V) (pattern : string) : list string :=
  let pattern := PyStr.lower pattern in
  filter (fun key => Is_true (PyStr.contains pattern (PyStr.lower key))) (keys self).

(** *** [get_variable_stats] *)

(** numpy's reductions [np.min], [np.max], [np.mean] and [np.std] of a
    one-dimensional array, each called with the array alone.  What they
    return in binary64 is numpy's business (the order of its sums, the way
    its vector instructions settle a tie between [0.0] and [-0.0]) and is
    not fixed here. *)
Variable np_min np_max np_mean np_std : list V -> V.

(** [data = np.array(self.values[var_name])] is the whole series;
    [data.size] is its length. *)
Definition get_variable_stats (self : reader V) (var_name : string) : option (stats V) :=
  match values self !! var_name with
  | None => None
  | Some series =>
      if (length series =? 0)%nat then None
      else Some {| stat_min := np_min series;
                   stat_max := np_max series;
                   stat_mean := np_mean series;
                   stat_std := np_std series;
                   stat_size := length series |}
  end.

End Reader.
End ModelicaMatReader.

(** ** Notions used in the statements *)

Import ModelicaMatReader.

(** The characters of column [c] read from the first of [rows] on, up to
    the first null character, the first row too short to have a column [c],
    or the end of [rows]. *)
Fixpoint column_prefix (c : nat) (rows : list string) : string :=
  match rows with
  | [] => EmptyString
  | row :: rest =>
      match String.get c row with
      | None => EmptyString
      | Some ch =>
          if Ascii.eqb ch "000"%char then EmptyString
          else String ch (column_prefix c rest)
      end
  end.

(** The classifier as an ordered rule table: the label of the first rule
    with a keyword occurring in the lower-cased name, [other] if none. *)
Definition rule_table : list (string * list string) :=
  [("time", ["time"]);
   ("electrical",
    ["voltage"; "current"; "power"; "v["; "i["; "p["; "volt"; "amp"; "dc"; "ac"]);
   ("thermal", ["temp"; "heat"; "cool"; "thermal"]);
   ("mechanical", ["speed"; "torque"; "rpm"; "mechanical"; "omega"]);
   ("control", ["control"; "ref"; "cmd"; "set"; "governor"]);
   ("fault", ["fault"; "error"; "alarm"; "trip"])].

Fixpoint first_match (rules : list (string * list string)) (s : string) : string :=
  match rules with
  | [] => "other"
  | (label, kws) :: rest =>
      if PyStr.any_in kws s then label else first_match rest s
  end.

Definition category_labels : list string :=
  ["time"; "electrical"; "thermal"; "mechanical"; "control"; "fault"; "other"].

(** The [dataInfo] pair of index [i]: block selector and row index. *)
Definition info_pair {V} (d : raw V) (i : nat) : option (Z * Z) :=
  info ← dataInfo d;
  selectors ← info !! 0%nat;
  rows ← info !! 1%nat;
  sel ← selectors !! i;
  row_index ← rows !! i;
  Some (sel, row_index).

(** The block a selector stands for. *)
Definition selected_block {V} (d : raw V) (sel : Z) : option (list (list V)) :=
  if (sel =? 1)%Z then data_1 d
  else if (sel =? 2)%Z then data_2 d
  else None.

(** [line_num] addresses a row of [block], from the start or, when
    negative, from the end. *)
Definition row_in_range {V} (block : list (list V)) (line_num : Z) : bool :=
  ((- Z.of_nat (length block) <=? line_num)%Z
   && (line_num <? Z.of_nat (length block))%Z)%bool.

(** A pair the resolver accepts: selector 1 or 2, the block present, and
    [row index - 1] addressing one of its rows. *)
Definition valid_pair {V} (d : raw V) (i : nat) : bool :=
  match info_pair d i with
  | Some (sel, row_index) =>
      match selected_block d sel with
      | Some block => row_in_range block (row_index - 1)
      | None => false
      end
  | None => false
  end.

(** The series stored by index [j], if that index stores one. *)
Definition stored {V} (self : reader V) (j : nat) : option (list V) :=
  match resolve_entry self j with
  | Ok (Some dataV) => Some dataV
  | Ok None => None
  | Raise _ => None
  end.

(** ** Example inputs *)

(** A two-by-two name matrix without nulls. *)
Definition square_names : list string := ["ab"; "cd"].

(** A ragged name matrix with a null-only last row. *)
Definition ragged_names : list string := ["abc"; "cd"; "e"; ""].

Definition raw_of_names (nm : list string) : raw float :=
  {| name := Some nm; dataInfo := None; data_1 := None; data_2 := None |}.

Definition reader_of_raw (d : raw float) : reader float :=
  {| file_path := None; data := Some d; keys := []; values := ∅;
     time_vector := [] |}.

(** A file whose only variable has row index 0, so that [row index - 1]
    is negative. *)
Definition wrap_raw : raw float :=
  {| name := Some ["x?"; ""];
     dataInfo := Some [[1%Z]; [0%Z]];
     data_1 := Some [[7%float]];
     data_2 := None |}.

Definition wrap_reader : reader float :=
  {| file_path := None; data := Some wrap_raw; keys := ["x"]; values := ∅;
     time_vector := [] |}.

(** A file in which the name [u] is decoded twice: index 0 selects row 2
    of block 2, index 1 has selector 3. *)
Definition twice_raw : raw float :=
  {| name := Some ["uu?"; ""];
     dataInfo := Some [[2%Z; 3%Z]; [2%Z; 1%Z]];
     data_1 := Some [[0%float]];
     data_2 := Some [[0%float; 1%float]; [5%float; 6%float]] |}.

Definition twice_reader : reader float :=
  {| file_path := None; data := Some twice_raw; keys := ["u"; "u"];
     values := ∅; time_vector := [] |}.

(** A file with one resolvable variable and one whose row index lies
    beyond the block. *)
Definition gap_raw : raw float :=
  {| name := Some ["pq?"; ""];
     dataInfo := Some [[1%Z; 2%Z]; [1%Z; 5%Z]];
     data_1 := Some [[1.5%float]];
     data_2 := Some [[0%float; 1%float]; [5%float; 6%float]] |}.

Definition gap_reader : reader float :=
  {| file_path := None; data := Some gap_raw; keys := ["p"; "q"];
     values := ∅; time_vector := [] |}.

(** A deserializer that rejects every path, one that returns a file
    without a [name] entry, and a rendering of exceptions. *)
Definition failing_loadmat (path : string) : result (raw float) :=
  Raise (LoadError "unreadable").

Definition nameless_raw : raw float :=
  {| name := None; dataInfo := Some [[1%Z]; [1%Z]];
     data_1 := Some [[7%float]]; data_2 := None |}.

Definition nameless_loadmat (path : string) : result (raw float) :=
  Ok nameless_raw.

Definition gap_loadmat (path : string) : result (raw float) := Ok gap_raw.

Definition plain_str (e : exn) : string :=
  match e with
  | KeyError key => "'" ++ key ++ "'"
  | IndexError => "index out of range"
  | TypeError => "'NoneType' object is not subscriptable"
  | LoadError msg => msg
  end.

(** Two series under plain names, as in the specification's example. *)
Definition plain_reader : reader float :=
  {| file_path := None; data := None; keys := ["a"; "b"];
     values := <["a" := [5; 7; 9]%float]> (<["b" := [1; 2; 3]%float]> ∅);
     time_vector := [0; 1; 2]%float |}.

(** The same series under indexed names, and a shorter third one. *)
Definition indexed_reader : reader float :=
  {| file_path := None; data := None; keys := ["a[1]"; "b[1]"; "c[1]"];
     values := <["a[1]" := [5; 7; 9]%float]>
                 (<["b[1]" := [1; 2; 3]%float]> (<["c[1]" := [1; 2]%float]> ∅));
     time_vector := [0; 1; 2]%float |}.

(** Derivative variables, whose names contain parentheses. *)
Definition der_reader : reader float :=
  {| file_path := None; data := None; keys := ["der(x[1])"; "der(x[2])"];
     values := <["der(x[1])" := [3]%float]> (<["der(x[2])" := [1]%float]> ∅);
     time_vector := [0]%float |}.

(** A result file that loads into [der_reader]: two names of nine
    characters, a trailing sentinel column and a null-only last row. *)
Definition der_raw : raw float :=
  {| name := Some ["dd?"; "ee?"; "rr?"; "((?"; "xx?"; "[[?"; "12?"; "]]?"; "))?"; ""];
     dataInfo := Some [[2%Z; 2%Z; 0%Z]; [2%Z; 3%Z; 0%Z]];
     data_1 := Some [[0%float]];
     data_2 := Some [[0%float]; [3%float]; [1%float]] |}.

Definition der_loadmat (path : string) : result (raw float) := Ok der_raw.

(** Names for the classifier. *)
Definition named_reader : reader float :=
  {| file_path := None; data := None;
     keys := ["setpoint_fault"; "busVoltage"; "time"; "tripFlag"; "x"; "busVoltage"];
     values := ∅; time_vector := [] |}.

(** The specification's sample series, next to an empty one. *)
Definition stats_reader : reader float :=
  {| file_path := None; data := None; keys := ["s"; "e"];
     values := <["s" := [2; 4; 4; 4; 5; 5; 7; 9]%float]> (<["e" := []]> ∅);
     time_vector := [] |}.


(** ** The plot widget *)

Module PyQtGraphWidget.
Section Widget.
Context {V : Type} `{Sample V}.

(** The abscissa handed to [plot]: [np.array(time_data)] or
    [np.arange(n)]. *)
Inductive xdata : Type :=
| TimeAxis (t : list V)
| Arange (n : nat).

Definition xdata_length (x : xdata) : nat :=
  match x with
  | TimeAxis t => length t
  | Arange n => n
  end.

(** A curve of [current_plots], by the arguments [plot] was called with. *)
Record curve : Type := {
  curve_x : xdata;
  curve_y : list V;
  curve_pen : string;
  curve_name : string
}.

(** The attributes of the widget the plotting methods write: the list of
    curves, the status label and the label of the bottom axis. *)
Record widget : Type := {
  current_plots : list curve;
  status_label : string;
  bottom_label : string
}.

Definition colors : list string :=
  ["#1f77b4"; "#ff7f0e"; "#2ca02c"; "#d62728"; "#9467bd";
   "#8c564b"; "#e377c2"; "#7f7f7f"; "#bcbd22"; "#17becf"].

(** [self.colors[i % len(self.colors)]] *)
Definition color_at (i : nat) : string :=
  nth (i mod length colors) colors EmptyString.

Definition clear_plot (self : widget) : widget :=
  {| current_plots := []; status_label := "图表已清除";
     bottom_label := bottom_label self |}.

(** The abscissa of a series: the time vector when there is one of the
    same length, the sample numbers otherwise. *)
Definition plot_x (time_data y_data : list V) : xdata :=
  if (truthy time_data && (length y_data =? length time_data)%nat)%bool
  then TimeAxis time_data
  else Arange (length y_data).

(** One iteration of the plotting loop over [zip(variable_names, var_data)];
    the state is [current_plots] and [valid_count]. *)
Definition plot_step (time_data : list V) (st : list curve * nat)
    (item : string * list V) : list curve * nat :=
  if truthy item.2
  then ((st.1 ++ [{| curve_x := plot_x time_data item.2;
                     curve_y := item.2;
                     curve_pen := color_at st.2;
                     curve_name := item.1 |}])%list,
        S st.2)
  else st.

Definition plot_variables (self : widget) (reader : reader V)
    (variable_names : list string) : widget :=
  if truthy variable_names then
    let self := clear_plot self in
    let var_data := (read_variables reader variable_names).1 in
    let time_data := (read_variables reader variable_names).2 in
    let x_label := if truthy time_data then "时间 (s)" else "数据点" in
    let st := fold_left (plot_step time_data) (zip variable_names var_data)
                        (current_plots self, 0) in
    {| current_plots := st.1;
       status_label := "已绘制 " ++ pretty st.2 ++ " 个变量";
       bottom_label := x_label |}
  else
    {| current_plots := current_plots self; status_label := "没有选择变量";
       bottom_label := bottom_label self |}.

(** [var_data[0]] cannot fail on the one-element answer of
    [read_variables]; the handler of the [try] is modelled all the same. *)
Definition add_variable (self : widget) (reader : reader V)
    (var_name : string) : widget :=
  let var_data := (read_variables reader [var_name]).1 in
  let time_data := (read_variables reader [var_name]).2 in
  match list_index var_data 0 with
  | Raise _ =>
      {| current_plots := current_plots self;
         status_label := "添加变量失败: list index out of range";
         bottom_label := bottom_label self |}
  | Ok data =>
      if truthy data then
        {| current_plots :=
             (current_plots self ++
              [{| curve_x := plot_x time_data data;
                  curve_y := data;
                  curve_pen := color_at (length (current_plots self));
                  curve_name := var_name |}])%list;
           status_label := "已添加变量: " ++ var_name;
           bottom_label := bottom_label self |}
      else self
  end.

(** The curve drawn at [position] for a name, from what the reader
    returns for it. *)
Definition curve_of (reader : reader V) (position : nat) (var_name : string)
    : curve :=
  {| curve_x := plot_x (time_vector reader) (read_one reader var_name);
     curve_y := read_one reader var_name;
     curve_pen := color_at position;
     curve_name := var_name |}.

(** Every curve has the colour of its position in [current_plots]. *)
Definition colored_by_position (self : widget) : Prop :=
  forall k c, current_plots self !! k = Some c -> curve_pen c = color_at k.

End Widget.
End PyQtGraphWidget.

(** ** The main window *)

Module ModelicaMatAnalyzer.
Section Window.
Context {V : Type} `{Sample V}.

(** [x in l] for a list of strings. *)
Definition contains_name (x : string) (l : list string) : bool :=
  existsb (String.eqb x) l.

(** [l.remove(x)]: the first occurrence goes; the callers test [x in l]
    first, so the ValueError of an absent [x] is never raised. *)
Fixpoint list_remove (x : string) (l : list string) : list string :=
  match l with
  | [] => []
  | y :: rest => if String.eqb y x then rest else y :: list_remove x rest
  end.

(** The part of the window the selection methods write: the selected
    names, the texts of the items of [selected_list], and the status bar. *)
Record window : Type := {
  selected_variables : list string;
  selected_list : list string;
  status_bar : string
}.

(** [__init__] and [init_ui]: nothing selected, an empty list widget. *)
Definition init_window : window :=
  {| selected_variables := []; selected_list := [];
     status_bar := EmptyString |}.

(** [update_selected_list]: one item per selected name, with a prefix. *)
Definition selected_items (selected : list string) : list string :=
  map (fun var => "📊 " ++ var) selected.

(** [item] is the text of the item the handler receives. *)
Definition add_variable_to_selection (self : window) (item : string) : window :=
  let var_name := item in
  if negb (contains_name var_name (selected_variables self)) then
    let selected := (selected_variables self ++ [var_name])%list in
    {| selected_variables := selected;
       selected_list := selected_items selected;
       status_bar := "已添加变量: " ++ var_name |}
  else self.

Definition remove_variable_from_selection (self : window) (item : string) : window :=
  let var_name := item in
  if contains_name var_name (selected_variables self) then
    let selected := list_remove var_name (selected_variables self) in
    {| selected_variables := selected;
       selected_list := selected_items selected;
       status_bar := "已移除变量: " ++ var_name |}
  else self.

Definition clear_selection (self : window) : window :=
  {| selected_variables := []; selected_list := selected_items [];
     status_bar := "已清空选择" |}.

(** The search handler of the window, on the item texts of the seven
    category lists and the status bar: nothing happens for a blank pattern
    or before a file is loaded; otherwise every list is cleared and filled
    with the matches found in its category. *)
Definition search_variables (reader : reader V) (search_text : string)
    (category_lists : gmap string (list string)) (status_bar : string)
    : gmap string (list string) * string :=
  let pattern := PyStr.strip search_text in
  if (String.eqb pattern "" || negb (truthy (keys reader)))%bool
  then (category_lists, status_bar)
  else
    let matched_vars := ModelicaMatReader.search_variables reader pattern in
    let categories := get_variable_categories reader in
    ((fun cat_vars =>
        filter (fun var => Is_true (contains_name var cat_vars)) matched_vars)
     <$> categories,
     "搜索到 " ++ pretty (length matched_vars) ++ " 个匹配变量").

(** [d[k] = v] on a dictionary kept in insertion order. *)
Fixpoint dict_set {A} (k : string) (v : A) (d : list (string * A))
    : list (string * A) :=
  match d with
  | [] => [(k, v)]
  | (k', v') :: rest =>
      if String.eqb k' k then (k', v) :: rest
      else (k', v') :: dict_set k v rest
  end.

(** [d.get(k)] on the same representation. *)
Fixpoint dict_get {A} (k : string) (d : list (string * A)) : option A :=
  match d with
  | [] => None
  | (k', v') :: rest => if String.eqb k' k then Some v' else dict_get k rest
  end.

(** The dictionary [export_csv] hands to [pd.DataFrame]: the time column
    and one column per selected variable whose series is non-empty and as
    long as the time vector. *)
Definition export_data (reader : reader V) (selected : list string)
    : list (string * list V) :=
  let var_data := (read_variables reader selected).1 in
  let time_data := (read_variables reader selected).2 in
  fold_left
    (fun export_data item =>
       if (truthy item.2 && (length item.2 =? length time_data)%nat)%bool
       then dict_set item.1 item.2 export_data
       else export_data)
    (zip selected var_data) [("time", time_data)].

(** The test [data and len(data) == len(time_data)] of [export_csv], on
    the series read for [var]. *)
Definition exportable (reader : reader V) (var : string) : bool :=
  (truthy (read_one reader var)
   && (length (read_one reader var) =? length (time_vector reader))%nat)%bool.

End Window.
End ModelicaMatAnalyzer.

(** * Properties *)

(** ** Strings *)

Lemma append_cons (a : ascii) (s t : string) :
  String a s ++ t = String a (s ++ t).
Proof. reflexivity. Qed.

Lemma append_empty_r (s : string) : s ++ "" = s.
Proof.
  induction s as [|a s IH]; [reflexivity|].
  now rewrite append_cons, IH.
Qed.

Lemma append_snoc (key rest : string) (c : ascii) :
  (key ++ String c "") ++ rest = key ++ String c rest.
Proof.
  induction key as [|a key IH]; [reflexivity|].
  now rewrite !append_cons, IH.
Qed.

Lemma string_get_none (s : string) (n : nat) :
  String.get n s = None <-> String.length s <= n.
Proof.
  revert n. induction s as [|a s IH]; intros n; simpl.
  - split; [lia | reflexivity].
  - destruct n as [|n]; simpl; [split; [discriminate | lia] |].
    rewrite IH. lia.
Qed.

(** ** The name decoder *)

Section Decoder.
Context {V : Type} `{Sample V}.

(** The inner loop appends the column's characters up to its first stop. *)
Lemma scan_rows_column_prefix (xx : nat) (rows : list string) (key : string) :
  scan_rows xx rows key = key ++ column_prefix xx rows.
Proof.
  revert key. induction rows as [|row rest IH]; intros key; simpl.
  - now rewrite append_empty_r.
  - unfold str_index. destruct (Nat.ltb_spec (String.length row) xx) as [Hlt|Hge].
    + assert (String.get xx row = None) as -> by (apply string_get_none; lia).
      now rewrite append_empty_r.
    + destruct (String.get xx row) as [ch|]; [|now rewrite append_empty_r].
      destruct (Ascii.eqb ch "000"); [now rewrite append_empty_r|].
      rewrite IH. apply append_snoc.
Qed.

Lemma append_loop_map {A B} (f : A -> B) (l : list A) (acc : list B) :
  fold_left (fun ks x => (ks ++ [f x])%list) l acc = (acc ++ map f l)%list.
Proof.
  revert acc. induction l as [|x l IH]; intros acc; simpl.
  - now rewrite app_nil_r.
  - rewrite IH. now rewrite <- app_assoc.
Qed.

(** The outer loop yields one key per processed column, in column order. *)
Lemma decode_map (nm : list string) (row0 : string) :
  decode nm row0 =
  map (fun c => column_prefix c (visited_rows nm)) (seq 0 (String.length row0 - 1)).
Proof.
  unfold decode. rewrite append_loop_map. simpl.
  apply map_ext. intros c. apply scan_rows_column_prefix.
Qed.

Lemma decode_length (nm : list string) (row0 : string) :
  length (decode nm row0) = String.length row0 - 1.
Proof. rewrite decode_map, length_map. apply length_seq. Qed.

Lemma decode_lookup (nm : list string) (row0 : string) (c : nat) :
  c < String.length row0 - 1 ->
  decode nm row0 !! c = Some (column_prefix c (visited_rows nm)).
Proof.
  intros Hc. rewrite decode_map, list_lookup_fmap.
  rewrite lookup_seq_lt by exact Hc. reflexivity.
Qed.

(** [_parse_keys_original] on a loaded file with a non-empty name array. *)
Lemma parse_keys_ok (self : reader V) (d : raw V) (row0 : string)
    (rest : list string) :
  data self = Some d -> name d = Some (row0 :: rest) ->
  _parse_keys_original self = Ok (set_keys self (decode (row0 :: rest) row0)).
Proof.
  intros Hd Hn. unfold _parse_keys_original, data_item. rewrite Hd, Hn.
  reflexivity.
Qed.

End Decoder.

(** C7: for a name matrix whose first row has at least one column,
    decoding succeeds and returns exactly [columnCount - 1] names: entry [c]
    is the name built by the inner loop for column [c], for every [c] from 0
    to [columnCount - 2], and the final column, [columnCount - 1], has no
    entry. *)
Theorem C7_decode_skips_final_column {V : Type} `{Sample V}
    (self : reader V) (d : raw V) (row0 : string) (rest : list string) :
  data self = Some d ->
  name d = Some (row0 :: rest) ->
  1 <= String.length row0 ->
  exists self',
    _parse_keys_original self = Ok self' /\
    Z.of_nat (length (keys self')) = (Z.of_nat (String.length row0) - 1)%Z /\
    (forall c : Z,
       (0 <= c <= Z.of_nat (String.length row0) - 2)%Z ->
       keys self' !! Z.to_nat c =
       Some (scan_rows (Z.to_nat c) (visited_rows (row0 :: rest)) EmptyString)) /\
    keys self' !! (String.length row0 - 1) = None.
Proof.
  intros Hd Hn Hcols. eexists.
  split; [apply (parse_keys_ok self d row0 rest Hd Hn)|].
  simpl. split; [rewrite decode_length; lia|]. split.
  - intros c Hc. rewrite decode_lookup by lia.
    now rewrite scan_rows_column_prefix.
  - apply lookup_ge_None. rewrite decode_length. lia.
Qed.

Lemma C7_decode_skips_final_column_witness :
  exists self',
    _parse_keys_original (reader_of_raw (raw_of_names ragged_names)) = Ok self' /\
    keys self' = ["ace"; "bd"].
Proof.
  destruct (C7_decode_skips_final_column
              (reader_of_raw (raw_of_names ragged_names))
              (raw_of_names ragged_names) "abc" ["cd"; "e"; ""]
              eq_refl eq_refl) as (self' & Hok & _).
  - simpl. lia.
  - exists self'. split; [exact Hok|].
    simpl in Hok. injection Hok as <-. reflexivity.
Defined.

(** C4, as amended: the inner loop stops one row before the end, so the
    last row of the matrix is never read.  The name decoded for a processed
    column [c] consists of exactly the characters of that column in all rows
    but the last, read from row 0 upward, that precede the first null
    character and the first row too short to have a column [c].  The decoded
    list depends on the name matrix alone. *)
Theorem C4_decode_column_prefix {V : Type} `{Sample V}
    (self other : reader V) (d d' : raw V) (nm : list string) (row0 : string) :
  data self = Some d -> name d = Some nm ->
  data other = Some d' -> name d' = Some nm ->
  nm !! 0 = Some row0 ->
  exists self' other',
    _parse_keys_original self = Ok self' /\
    _parse_keys_original other = Ok other' /\
    (forall c, c < String.length row0 - 1 ->
       keys self' !! c = Some (column_prefix c (take (length nm - 1) nm))) /\
    keys other' = keys self'.
Proof.
  intros Hd Hn Hd' Hn' Hrow. destruct nm as [|r rest]; [discriminate|].
  injection Hrow as ->.
  exists (set_keys self (decode (row0 :: rest) row0)),
         (set_keys other (decode (row0 :: rest) row0)).
  split; [apply (parse_keys_ok self d row0 rest Hd Hn)|].
  split; [apply (parse_keys_ok other d' row0 rest Hd' Hn')|].
  split; [|reflexivity].
  intros c Hc. simpl keys. now rewrite decode_lookup by exact Hc.
Qed.

Lemma C4_decode_column_prefix_witness :
  exists self',
    _parse_keys_original (reader_of_raw (raw_of_names ragged_names)) = Ok self' /\
    keys self' !! 0 = Some "ace" /\ keys self' !! 1 = Some "bd".
Proof.
  destruct (C4_decode_column_prefix
              (reader_of_raw (raw_of_names ragged_names))
              (reader_of_raw (raw_of_names ragged_names))
              (raw_of_names ragged_names) (raw_of_names ragged_names)
              ragged_names "abc" eq_refl eq_refl eq_refl eq_refl eq_refl)
    as (self' & _ & Hok & _ & Hcol & _).
  exists self'. split; [exact Hok|]. split.
  - rewrite (Hcol 0) by (simpl; lia). reflexivity.
  - rewrite (Hcol 1) by (simpl; lia). reflexivity.
Defined.

(** C4 as stated fails: in a two-by-two matrix without nulls column 0
    carries the characters [a] and [c], but the decoded name is ["a"]. *)
Lemma C4_last_row_counterexample :
  column_prefix 0 square_names = "ac" /\
  exists self',
    _parse_keys_original (reader_of_raw (raw_of_names square_names)) = Ok self' /\
    keys self' !! 0 = Some "a" /\
    keys self' !! 0 <> Some (column_prefix 0 square_names).
Proof.
  split; [reflexivity|]. eexists. split; [reflexivity|].
  split; [reflexivity|]. vm_compute. discriminate.
Qed.

(** ** The value resolver *)

Section Resolver.
Context {V : Type} `{Sample V}.

Lemma np_index_nat {A} (a : list A) (i : nat) :
  Np.index a (Z.of_nat i) =
  match a !! i with
  | Some x => Ok x
  | None => Raise IndexError
  end.
Proof.
  unfold Np.index.
  destruct (Z.ltb_spec (Z.of_nat i) 0) as [Hneg|_]; [lia|].
  rewrite Nat2Z.id.
  destruct (Z.leb_spec 0 (Z.of_nat i)) as [_|Hneg]; [|lia].
  destruct (Z.ltb_spec (Z.of_nat i) (Z.of_nat (length a))) as [Hlt|Hge]; simpl.
  - reflexivity.
  - rewrite lookup_ge_None_2 by lia. reflexivity.
Qed.

Lemma np_index_row0 {A} (a : list A) :
  Np.index a 0 = match a !! 0%nat with Some x => Ok x | None => Raise IndexError end.
Proof. exact (np_index_nat a 0). Qed.

Lemma np_index_row1 {A} (a : list A) :
  Np.index a 1 = match a !! 1%nat with Some x => Ok x | None => Raise IndexError end.
Proof. exact (np_index_nat a 1). Qed.

Lemma np_index_in_range {A} (a : list A) (z : Z) :
  (- Z.of_nat (length a) <= z < Z.of_nat (length a))%Z ->
  exists x, Np.index a z = Ok x /\ x ∈ a.
Proof.
  intros Hz. unfold Np.index.
  set (j := if (z <? 0)%Z then (z + Z.of_nat (length a))%Z else z).
  assert (0 <= j < Z.of_nat (length a))%Z as Hj.
  { subst j. destruct (Z.ltb_spec z 0); lia. }
  destruct (Z.leb_spec 0 j) as [_|Hneg]; [|lia].
  destruct (Z.ltb_spec j (Z.of_nat (length a))) as [_|Hge]; [|lia]. simpl.
  destruct (lookup_lt_is_Some_2 a (Z.to_nat j)) as [x Hx]; [lia|].
  rewrite Hx. exists x. split; [reflexivity|].
  apply list_elem_of_lookup. eauto.
Qed.

Lemma np_index_out_of_range {A} (a : list A) (z : Z) :
  ~ (- Z.of_nat (length a) <= z < Z.of_nat (length a))%Z ->
  Np.index a z = Raise IndexError.
Proof.
  intros Hz. unfold Np.index.
  destruct (Z.ltb_spec z 0) as [Hneg|Hpos].
  - destruct (Z.leb_spec 0 (z + Z.of_nat (length a))) as [Hle|_]; [lia|].
    reflexivity.
  - destruct (Z.leb_spec 0 z) as [_|Hlt]; [|lia].
    destruct (Z.ltb_spec z (Z.of_nat (length a))) as [Hlt|_]; [lia|].
    reflexivity.
Qed.

Lemma row_in_range_spec (block : list (list V)) (z : Z) :
  row_in_range block z = true <->
  (- Z.of_nat (length block) <= z < Z.of_nat (length block))%Z.
Proof. unfold row_in_range. rewrite andb_true_iff. lia. Qed.

(** What one index stores, read off the [dataInfo] pair and the block. *)
Lemma stored_pair (self : reader V) (d : raw V) (i : nat) :
  data self = Some d ->
  stored self i =
  match info_pair d i with
  | Some (sel, row_index) =>
      match selected_block d sel with
      | Some block =>
          match Np.index block (row_index - 1) with
          | Ok dataV => Some dataV
          | Raise _ => None
          end
      | None => None
      end
  | None => None
  end.
Proof.
  intros Hd. unfold stored, resolve_entry, info_pair, data_block, data_item.
  rewrite Hd. destruct (dataInfo d) as [info|]; simpl; [|reflexivity].
  rewrite np_index_row0, np_index_row1. unfold list_index.
  destruct (info !! 0%nat) as [selectors|]; simpl; [|reflexivity].
  destruct (selectors !! i) as [sel|]; simpl;
    [|destruct (info !! 1%nat); reflexivity].
  destruct (info !! 1%nat) as [rows|]; simpl; [|reflexivity].
  destruct (rows !! i) as [row_index|]; simpl; [|reflexivity].
  unfold selected_block.
  destruct (Z.eqb_spec sel 1) as [->|Hne1]; simpl.
  - destruct (data_1 d) as [block|]; simpl; [|reflexivity].
    destruct (Np.index block (row_index - 1)); reflexivity.
  - destruct (Z.eqb_spec sel 2) as [->|Hne2]; simpl; [|reflexivity].
    destruct (data_2 d) as [block|]; simpl; [|reflexivity].
    destruct (Np.index block (row_index - 1)); reflexivity.
Qed.

Lemma stored_invalid (self : reader V) (d : raw V) (i : nat) :
  data self = Some d -> valid_pair d i = false -> stored self i = None.
Proof.
  intros Hd Hv. rewrite (stored_pair self d i Hd). unfold valid_pair in Hv.
  destruct (info_pair d i) as [[sel row_index]|]; [|reflexivity].
  destruct (selected_block d sel) as [block|]; [|reflexivity].
  rewrite np_index_out_of_range; [reflexivity|].
  rewrite <- row_in_range_spec. congruence.
Qed.

Lemma stored_valid (self : reader V) (d : raw V) (i : nat) (sel row_index : Z)
    (block : list (list V)) :
  data self = Some d ->
  info_pair d i = Some (sel, row_index) ->
  selected_block d sel = Some block ->
  row_in_range block (row_index - 1) = true ->
  exists dataV,
    stored self i = Some dataV /\
    Np.index block (row_index - 1) = Ok dataV /\ dataV ∈ block.
Proof.
  intros Hd Hp Hb Hr. rewrite (stored_pair self d i Hd), Hp, Hb.
  apply row_in_range_spec in Hr.
  destruct (np_index_in_range block (row_index - 1) Hr) as (x & Hx & Hin).
  rewrite Hx. eauto.
Qed.

(** An index that stores nothing leaves the table as it is. *)
Lemma resolve_step_failed (self : reader V) (vals : gmap string (list V))
    (index : nat) (nm : string) :
  stored self index = None -> resolve_step self vals (index, nm) = vals.
Proof.
  unfold stored, resolve_step. simpl.
  destruct (resolve_entry self index) as [[dataV|]|e]; [discriminate|reflexivity..].
Qed.

Lemma resolve_step_stored (self : reader V) (vals : gmap string (list V))
    (index : nat) (nm : string) (dataV : list V) :
  stored self index = Some dataV ->
  resolve_step self vals (index, nm) = <[nm := dataV]> vals.
Proof.
  unfold stored, resolve_step. simpl.
  destruct (resolve_entry self index) as [[s|]|e]; [|discriminate..].
  now intros [= ->].
Qed.

Lemma enumerate_snoc {A} (l : list A) (x : A) :
  enumerate (l ++ [x])%list = (enumerate l ++ [(length l, x)])%list.
Proof.
  unfold enumerate. rewrite length_app. simpl.
  rewrite seq_app. simpl.
  rewrite zip_with_app by (now rewrite length_seq). reflexivity.
Qed.

Lemma resolve_loop_snoc (self : reader V) (ks : list string) (k : string) :
  fold_left (resolve_step self) (enumerate (ks ++ [k])%list) ∅ =
  resolve_step self (fold_left (resolve_step self) (enumerate ks) ∅) (length ks, k).
Proof. rewrite enumerate_snoc, fold_left_app. reflexivity. Qed.

(** A name none of whose indices stores a series is absent. *)
Lemma resolve_loop_absent (self : reader V) (ks : list string) (nm : string) :
  (forall j, ks !! j = Some nm -> stored self j = None) ->
  fold_left (resolve_step self) (enumerate ks) ∅ !! nm = None.
Proof.
  induction ks as [|k ks IH] using rev_ind; intros Hall.
  - apply lookup_empty.
  - rewrite resolve_loop_snoc.
    assert (Hprev : forall j, ks !! j = Some nm -> stored self j = None).
    { intros j Hj. apply Hall. now apply lookup_app_l_Some. }
    destruct (stored self (length ks)) as [dataV|] eqn:Hst.
    + rewrite (resolve_step_stored _ _ _ _ _ Hst).
      destruct (decide (k = nm)) as [->|Hne].
      * rewrite Hall in Hst; [discriminate|]. apply list_lookup_middle. reflexivity.
      * rewrite lookup_insert_ne by exact Hne. now apply IH.
    + rewrite (resolve_step_failed _ _ _ _ Hst). now apply IH.
Qed.

(** The table holds, for each name, the series of the last index that
    stored one. *)
Lemma resolve_loop_last (self : reader V) (ks : list string) (nm : string)
    (i : nat) (dataV : list V) :
  ks !! i = Some nm ->
  stored self i = Some dataV ->
  (forall j, i < j -> ks !! j = Some nm -> stored self j = None) ->
  fold_left (resolve_step self) (enumerate ks) ∅ !! nm = Some dataV.
Proof.
  induction ks as [|k ks IH] using rev_ind; intros Hi Hst Hlater.
  - discriminate.
  - rewrite resolve_loop_snoc.
    destruct (decide (i = length ks)) as [->|Hne].
    + rewrite list_lookup_middle in Hi by reflexivity. injection Hi as ->.
      rewrite (resolve_step_stored _ _ _ _ _ Hst). apply lookup_insert_eq.
    + assert (i < length ks) as Hlt.
      { apply lookup_lt_Some in Hi. rewrite length_app in Hi. simpl in Hi. lia. }
      rewrite lookup_app_l in Hi by exact Hlt.
      assert (Hprev : forall j, i < j -> ks !! j = Some nm -> stored self j = None).
      { intros j Hij Hj. apply Hlater; [exact Hij|]. now apply lookup_app_l_Some. }
      destruct (stored self (length ks)) as [s|] eqn:Hlast.
      * rewrite (resolve_step_stored _ _ _ _ _ Hlast).
        destruct (decide (k = nm)) as [->|Hk].
        -- rewrite Hlater in Hlast; [discriminate|exact Hlt|].
           apply list_lookup_middle. reflexivity.
        -- rewrite lookup_insert_ne by exact Hk. now apply IH.
      * rewrite (resolve_step_failed _ _ _ _ Hlast). now apply IH.
Qed.

End Resolver.

(** C2, as amended: a name may be decoded at several indices, and the
    resolver has no test on the sign of [row index - 1].  A pair is rejected
    when its selector is neither 1 nor 2, and when [row index - 1] is at
    least the number of rows of the selected block or below minus that
    number; a name all of whose indices carry a rejected pair (or a missing
    block, or no pair at all) has no entry.  A pair with selector 1 or 2 and
    [0 <= row index - 1 < rows] that no later index of the same name
    replaces yields the row at that offset, whose length is the row length
    of the block. *)
Theorem C2_resolve_by_pair {V : Type} `{Sample V}
    (self : reader V) (d : raw V) (nm : string) :
  data self = Some d ->
  (forall j sel row_index,
     info_pair d j = Some (sel, row_index) ->
     sel <> 1%Z -> sel <> 2%Z -> valid_pair d j = false) /\
  (forall j sel row_index block,
     info_pair d j = Some (sel, row_index) ->
     selected_block d sel = Some block ->
     (row_index - 1 < - Z.of_nat (length block) \/
      Z.of_nat (length block) <= row_index - 1)%Z ->
     valid_pair d j = false) /\
  ((forall j, keys self !! j = Some nm -> valid_pair d j = false) ->
   resolve self !! nm = None) /\
  (forall i sel row_index block n,
     keys self !! i = Some nm ->
     info_pair d i = Some (sel, row_index) ->
     selected_block d sel = Some block ->
     (0 <= row_index - 1 < Z.of_nat (length block))%Z ->
     Np.row_length block n ->
     (forall j, i < j -> keys self !! j = Some nm -> valid_pair d j = false) ->
     exists dataV,
       resolve self !! nm = Some dataV /\
       block !! Z.to_nat (row_index - 1) = Some dataV /\
       length dataV = n).
Proof.
  intros Hd. split; [|split; [|split]].
  - intros j sel row_index Hp H1 H2. unfold valid_pair, selected_block.
    rewrite Hp. destruct (Z.eqb_spec sel 1); [contradiction|].
    destruct (Z.eqb_spec sel 2); [contradiction | reflexivity].
  - intros j sel row_index block Hp Hb Hout. unfold valid_pair.
    rewrite Hp, Hb. apply not_true_is_false. rewrite row_in_range_spec. lia.
  - intros Hall. apply resolve_loop_absent.
    intros j Hj. apply (stored_invalid self d j Hd). now apply Hall.
  - intros i sel row_index block n Hi Hp Hb Hr Hn Hlater.
    assert (row_in_range block (row_index - 1) = true) as Hrange
      by (apply row_in_range_spec; lia).
    destruct (stored_valid self d i sel row_index block Hd Hp Hb Hrange)
      as (dataV & Hst & Hrow & Hin).
    exists dataV. split; [|split].
    + apply (resolve_loop_last self (keys self) nm i dataV Hi Hst).
      intros j Hij Hj. apply (stored_invalid self d j Hd). now apply Hlater.
    + rewrite <- (Z2Nat.id (row_index - 1)) in Hrow by lia.
      rewrite np_index_nat in Hrow.
      destruct (block !! Z.to_nat (row_index - 1)); [congruence | discriminate].
    + unfold Np.row_length in Hn. rewrite Forall_forall in Hn. now apply Hn.
Qed.

Lemma C2_resolve_by_pair_witness :
  resolve gap_reader !! "q" = None /\
  exists dataV, resolve gap_reader !! "p" = Some dataV /\ length dataV = 1.
Proof.
  split.
  - destruct (C2_resolve_by_pair gap_reader gap_raw "q" eq_refl)
      as (_ & Hrange & Habsent & _).
    apply Habsent. intros [|[|j]] Hj; [discriminate | | discriminate].
    apply (Hrange 1 2%Z 5%Z [[0; 1]; [5; 6]]%float eq_refl eq_refl).
    right. simpl. lia.
  - destruct (C2_resolve_by_pair gap_reader gap_raw "p" eq_refl)
      as (_ & _ & _ & Hvalid).
    destruct (Hvalid 0 1%Z 1%Z [[1.5%float]] 1 eq_refl eq_refl eq_refl)
      as (dataV & Hres & _ & Hlen).
    + simpl. lia.
    + repeat constructor.
    + intros [|[|j]] Hij Hj; [lia | discriminate | discriminate].
    + exists dataV. split; assumption.
Defined.

(** C2 as stated fails: a row index of 0 makes [row index - 1] negative,
    yet the name gets the last row of its block; and a name with a rejected
    pair at one index still has the entry stored by another index. *)
Lemma C2_negative_offset_and_duplicate_counterexample :
  (keys wrap_reader !! 0 = Some "x" /\
   info_pair wrap_raw 0 = Some (1, 0)%Z /\
   (0 - 1 < 0)%Z /\
   resolve wrap_reader !! "x" = Some [7%float]) /\
  (keys twice_reader !! 1 = Some "u" /\
   info_pair twice_raw 1 = Some (3, 1)%Z /\
   resolve twice_reader !! "u" = Some [5%float; 6%float]).
Proof. repeat split; vm_compute; reflexivity. Qed.

(** C10: an index that stores nothing (rejected selector or any exception)
    leaves the table exactly as it was, so a name decoded at an index that
    stores a series and again only at later indices that store nothing keeps
    the series of the earlier index. *)
Theorem C10_failed_index_keeps_entry {V : Type} `{Sample V} (self : reader V) :
  (forall vals index nm,
     stored self index = None -> resolve_step self vals (index, nm) = vals) /\
  (forall nm i j dataV,
     i < j ->
     keys self !! i = Some nm ->
     keys self !! j = Some nm ->
     stored self i = Some dataV ->
     (forall k, i < k -> keys self !! k = Some nm -> stored self k = None) ->
     resolve self !! nm = Some dataV).
Proof.
  split.
  - intros vals index nm. apply resolve_step_failed.
  - intros nm i j dataV _ Hi _ Hst Hlater.
    now apply (resolve_loop_last self (keys self) nm i dataV).
Qed.

Lemma C10_failed_index_keeps_entry_witness :
  resolve twice_reader !! "u" = Some [5%float; 6%float].
Proof.
  destruct (C10_failed_index_keeps_entry twice_reader) as [_ Hkeep].
  apply (Hkeep "u" 0 1); [lia | reflexivity | reflexivity | reflexivity |].
  intros [|[|k]] Hk Hnm; [lia | reflexivity | discriminate].
Defined.

(** ** Expressions *)

Lemma prefix_empty (s : string) : String.prefix "" s = true.
Proof. destruct s; reflexivity. Qed.

Lemma contains_char (c : ascii) (s : string) :
  PyStr.contains (String c "") s = true <-> In c (list_ascii_of_string s).
Proof.
  induction s as [|a s IH]; simpl.
  - split; [discriminate | tauto].
  - destruct (Ascii.ascii_dec c a) as [->|Hne].
    + rewrite prefix_empty. split; [intros _; now left | reflexivity].
    + simpl. rewrite IH. split; [now right | intros [Heq|Hin]; congruence].
Qed.

Lemma split_without_separator (c : ascii) (s : string) :
  PyStr.contains (String c "") s = false -> PyStr.split c s = [s].
Proof.
  induction s as [|a s IH]; simpl; [reflexivity|].
  destruct (Ascii.ascii_dec c a) as [->|Hne];
    [rewrite prefix_empty; discriminate|]. simpl.
  intros Hs. rewrite (IH Hs).
  destruct (Ascii.eqb_spec a c) as [->|_]; [congruence | reflexivity].
Qed.

Section Evaluator.
Context {V : Type} `{Sample V}.

Lemma difference_from (pre1 pre2 l1 l2 : list V) :
  length pre1 = length pre2 ->
  length l1 = length l2 ->
  mapM (fun i => a ← list_index (pre1 ++ l1)%list i;
                 b ← list_index (pre2 ++ l2)%list i;
                 mret (s_sub a b))
       (seq (length pre1) (length l1)) = Ok (zip_with s_sub l1 l2).
Proof.
  revert pre1 pre2 l2. induction l1 as [|x l1 IH]; intros pre1 pre2 l2 Hpre Hlen.
  - destruct l2; [reflexivity | discriminate].
  - destruct l2 as [|y l2]; [discriminate|]. simpl in Hlen. injection Hlen as Hlen.
    simpl. unfold list_index in *.
    rewrite (list_lookup_middle pre1 l1 x (length pre1) eq_refl).
    rewrite (list_lookup_middle pre2 l2 y (length pre1) Hpre). simpl.
    specialize (IH (pre1 ++ [x])%list (pre2 ++ [y])%list l2).
    rewrite <- !app_assoc, !length_app in IH. simpl in IH.
    rewrite Nat.add_1_r in IH. rewrite IH by lia. reflexivity.
Qed.

(** The list comprehension never runs out of range on equally long series. *)
Lemma difference_zip (v1 v2 : list V) :
  length v1 = length v2 -> difference v1 v2 = Ok (zip_with s_sub v1 v2).
Proof. intros Hlen. exact (difference_from [] [] v1 v2 eq_refl Hlen). Qed.

(** The body of the [try] never raises. *)
Lemma evaluate_body_ok (self : reader V) (expression : string) :
  exists v, evaluate_body self expression = Ok v.
Proof.
  unfold evaluate_body.
  destruct (PyStr.contains "-" expression && PyStr.contains "[" expression)%bool;
    [|eexists; reflexivity].
  destruct (PyStr.split "-" expression) as [|p0 [|p1 [|p2 ps]]];
    try (eexists; reflexivity).
  destruct (truthy _ && truthy _ && (_ =? _)%nat)%bool eqn:Hc; [|eexists; reflexivity].
  apply andb_true_iff in Hc as [_ Hlen]. apply Nat.eqb_eq in Hlen.
  rewrite (difference_zip _ _ Hlen). eexists; reflexivity.
Qed.

Lemma evaluate_two_operands (self : reader V) (key left right : string)
    (v1 v2 : list V) :
  PyStr.contains "[" key = true ->
  PyStr.split "-" key = [left; right] ->
  values self !! PyStr.strip left = Some v1 ->
  values self !! PyStr.strip right = Some v2 ->
  _evaluate_expression self key =
  if (length v1 =? length v2)%nat then zip_with s_sub v1 v2 else [].
Proof.
  intros Hbr Hsplit H1 H2. unfold _evaluate_expression, evaluate_body.
  assert (PyStr.contains "-" key = true) as ->.
  { destruct (PyStr.contains "-" key) eqn:Hc; [reflexivity|].
    rewrite (split_without_separator _ _ Hc) in Hsplit. discriminate. }
  rewrite Hbr, Hsplit. simpl. unfold values_get. rewrite H1, H2. simpl.
  destruct (Nat.eqb_spec (length v1) (length v2)) as [Hlen|Hne].
  - destruct v1 as [|x v1], v2 as [|y v2]; try discriminate; [reflexivity|].
    simpl truthy. simpl andb. now rewrite (difference_zip _ _ Hlen).
  - rewrite andb_false_r. reflexivity.
Qed.

Lemma evaluate_unsupported (self : reader V) (key : string) :
  PyStr.contains "-" key = false \/
  PyStr.contains "[" key = false \/
  length (PyStr.split "-" key) <> 2 ->
  _evaluate_expression self key = [].
Proof.
  intros Hcase. unfold _evaluate_expression, evaluate_body.
  destruct (PyStr.contains "-" key) eqn:Hm; [|reflexivity].
  destruct (PyStr.contains "[" key) eqn:Hb; [|reflexivity]. simpl.
  destruct Hcase as [Hc|[Hc|Hc]]; [discriminate..|].
  destruct (PyStr.split "-" key) as [|p0 [|p1 [|p2 ps]]]; try reflexivity.
  now contradiction Hc.
Qed.

Lemma read_loop_map (self : reader V) (read_keys : list string) :
  (read_variables self read_keys).1 = map (read_one self) read_keys.
Proof. unfold read_variables. simpl. now rewrite append_loop_map. Qed.

End Evaluator.

Lemma is_expression_chars (key : string) :
  _is_expression key = true <->
  exists c, In c ["+"; "-"; "*"; "/"; "("; ")"]%char /\
            In c (list_ascii_of_string key).
Proof.
  unfold _is_expression, operators. rewrite existsb_exists. split.
  - intros (op & Hop & Hc). simpl in Hop.
    repeat (destruct Hop as [<-|Hop];
            [apply contains_char in Hc; eexists; split; [|exact Hc]; simpl; tauto|]).
    contradiction.
  - intros (c & Hc & Hin). exists (String c ""). split.
    + simpl in Hc. simpl.
      repeat (destruct Hc as [<-|Hc]; [tauto|]). contradiction.
    + now apply contains_char.
Qed.

(** C3, as amended: the evaluator only looks at keys that contain a ['[']
    besides the ['-'].  For such a key that splits on ['-'] into exactly two
    parts whose trimmed forms are both names of the table, the result is the
    elementwise difference when the two series have the same length and the
    empty list when they have not. *)
Theorem C3_evaluate_indexed_difference {V : Type} `{Sample V}
    (self : reader V) (key left right : string) (v1 v2 : list V) :
  PyStr.contains "[" key = true ->
  PyStr.split "-" key = [left; right] ->
  values self !! PyStr.strip left = Some v1 ->
  values self !! PyStr.strip right = Some v2 ->
  (length v1 = length v2 ->
   _evaluate_expression self key = zip_with s_sub v1 v2 /\
   forall i a b, v1 !! i = Some a -> v2 !! i = Some b ->
     _evaluate_expression self key !! i = Some (s_sub a b)) /\
  (length v1 <> length v2 -> _evaluate_expression self key = []).
Proof.
  intros Hbr Hsplit H1 H2.
  pose proof (evaluate_two_operands self key left right v1 v2 Hbr Hsplit H1 H2) as Hev.
  split.
  - intros Hlen. apply Nat.eqb_eq in Hlen. rewrite Hlen in Hev. split; [exact Hev|].
    intros i a b Ha Hb. rewrite Hev, lookup_zip_with, Ha. simpl. rewrite Hb.
    reflexivity.
  - intros Hne. apply Nat.eqb_neq in Hne. now rewrite Hne in Hev.
Qed.

Lemma C3_evaluate_indexed_difference_witness :
  _evaluate_expression indexed_reader "a[1]-b[1]" = [4; 5; 6]%float /\
  _evaluate_expression indexed_reader "a[1] - c[1]" = [].
Proof.
  split.
  - destruct (C3_evaluate_indexed_difference indexed_reader "a[1]-b[1]" "a[1]" "b[1]"
                [5; 7; 9]%float [1; 2; 3]%float eq_refl eq_refl eq_refl eq_refl)
      as [Hsame _].
    destruct (Hsame eq_refl) as [Hdiff _]. exact Hdiff.
  - destruct (C3_evaluate_indexed_difference indexed_reader "a[1] - c[1]" "a[1] " " c[1]"
                [5; 7; 9]%float [1; 2]%float eq_refl eq_refl eq_refl eq_refl)
      as [_ Hother].
    apply Hother. simpl. lia.
Defined.

(** C3 as stated fails on its own example: ["a-b"] has no ['['], so the
    subtraction is never attempted. *)
Lemma C3_plain_names_counterexample :
  values plain_reader !! "a" = Some [5; 7; 9]%float /\
  values plain_reader !! "b" = Some [1; 2; 3]%float /\
  PyStr.split "-" "a-b" = ["a"; "b"] /\
  _evaluate_expression plain_reader "a-b" = [] /\
  _evaluate_expression plain_reader "a-b" <> [4; 5; 6]%float.
Proof. repeat split; try (vm_compute; reflexivity). vm_compute. discriminate. Qed.

(** C9, as amended: a key is an expression exactly when one of
    [+ - * / ( )] occurs in it.  The evaluator returns the empty list for
    every key without ['-'], every key without ['['] and every key that does
    not split on ['-'] into exactly two parts, whatever the table holds; so
    ["a+b"] is an expression that evaluates to the empty list. *)
Theorem C9_expression_keys_without_difference {V : Type} `{Sample V} :
  (forall key,
     _is_expression key = true <->
     exists c, In c ["+"; "-"; "*"; "/"; "("; ")"]%char /\
               In c (list_ascii_of_string key)) /\
  (forall (self : reader V) key,
     PyStr.contains "-" key = false \/
     PyStr.contains "[" key = false \/
     length (PyStr.split "-" key) <> 2 ->
     _evaluate_expression self key = []) /\
  _is_expression "a+b" = true /\
  (forall self : reader V, _evaluate_expression self "a+b" = []).
Proof.
  split; [exact is_expression_chars|]. split; [exact evaluate_unsupported|].
  split; [reflexivity|].
  intros self. apply evaluate_unsupported. left. reflexivity.
Qed.

Lemma C9_expression_keys_without_difference_witness :
  _is_expression "a[1]-b[1]-c[1]" = true /\
  _evaluate_expression indexed_reader "a[1]-b[1]-c[1]" = [] /\
  _evaluate_expression indexed_reader "a[1]*b[1]" = [].
Proof.
  destruct (@C9_expression_keys_without_difference float _) as (Hexp & Hempty & _).
  split; [|split].
  - apply Hexp. exists "-"%char. split; simpl; tauto.
  - apply Hempty. right. right. simpl. lia.
  - apply Hempty. left. reflexivity.
Defined.

(** C9 as stated fails: a key with parentheses is still split at its one
    ['-'] and evaluated when both sides are names of the table. *)
Lemma C9_parenthesised_difference_counterexample :
  PyStr.contains "(" "der(x[1])-der(x[2])" = true /\
  _is_expression "der(x[1])-der(x[2])" = true /\
  _evaluate_expression der_reader "der(x[1])-der(x[2])" = [2]%float /\
  _evaluate_expression der_reader "der(x[1])-der(x[2])" <> [].
Proof. repeat split; try (vm_compute; reflexivity). vm_compute. discriminate. Qed.

(** C1, as amended: the operator test comes first.  A requested name that
    contains one of [+ - * / ( )] gets the result of expression evaluation,
    whether or not the table has that name; any other name gets its series
    from the table, or the empty list when the table has none.  The output
    has one entry per requested name, in the order of the request, next to
    the time vector; the function is total. *)
Theorem C1_read_variables_operator_first {V : Type} `{Sample V}
    (self : reader V) (read_keys : list string) :
  length (read_variables self read_keys).1 = length read_keys /\
  (read_variables self read_keys).2 = time_vector self /\
  forall i _rk, read_keys !! i = Some _rk ->
    (read_variables self read_keys).1 !! i =
    Some (if _is_expression _rk then _evaluate_expression self _rk
          else match values self !! _rk with
               | Some series => series
               | None => []
               end).
Proof.
  rewrite read_loop_map. split; [apply length_map|]. split; [reflexivity|].
  intros i _rk Hi. rewrite list_lookup_fmap, Hi. simpl. unfold read_one, values_get.
  destruct (_is_expression _rk); [reflexivity|].
  destruct (values self !! _rk); reflexivity.
Qed.

Lemma C1_read_variables_operator_first_witness :
  (read_variables indexed_reader ["a[1]"; "a[1]-b[1]"; "zz"]).1 !! 0 =
    Some [5; 7; 9]%float /\
  (read_variables indexed_reader ["a[1]"; "a[1]-b[1]"; "zz"]).1 !! 1 =
    Some [4; 5; 6]%float /\
  (read_variables indexed_reader ["a[1]"; "a[1]-b[1]"; "zz"]).1 !! 2 = Some [].
Proof.
  destruct (C1_read_variables_operator_first indexed_reader
              ["a[1]"; "a[1]-b[1]"; "zz"]) as (_ & _ & Hat).
  split; [|split].
  - exact (Hat 0 "a[1]" eq_refl).
  - exact (Hat 1 "a[1]-b[1]" eq_refl).
  - exact (Hat 2 "zz" eq_refl).
Defined.

(** The reader of the next example is what loading [der_raw] produces. *)
Lemma der_reader_loaded :
  (load_data der_loadmat plain_str init "der.mat").2.1 = true /\
  keys (load_data der_loadmat plain_str init "der.mat").1 = keys der_reader /\
  values (load_data der_loadmat plain_str init "der.mat").1 = values der_reader /\
  time_vector (load_data der_loadmat plain_str init "der.mat").1 =
    time_vector der_reader.
Proof. repeat split; vm_compute; reflexivity. Qed.

(** C1 as stated fails: a name of the table that contains an operator
    character is evaluated as an expression and its series is not returned. *)
Lemma C1_literal_name_with_operator_counterexample :
  values der_reader !! "der(x[1])" = Some [3]%float /\
  (read_variables der_reader ["der(x[1])"]).1 = [[]] /\
  (read_variables der_reader ["der(x[1])"]).1 <> [[3]%float].
Proof. repeat split; try (vm_compute; reflexivity). vm_compute. discriminate. Qed.

(** ** The classifier *)

Lemma any_in_single (kw s : string) :
  PyStr.any_in [kw] s = PyStr.contains kw s.
Proof. unfold PyStr.any_in. simpl. apply orb_false_r. Qed.

(** The [elif] chain is the ordered rule table. *)
Lemma category_of_first_match (key : string) :
  category_of key = first_match rule_table (PyStr.lower key).
Proof.
  unfold category_of. cbv [first_match rule_table]. rewrite any_in_single.
  reflexivity.
Qed.

Lemma category_of_label (key : string) : In (category_of key) category_labels.
Proof.
  unfold category_of, category_labels.
  repeat match goal with
         | |- context [if ?b then _ else _] => destruct b
         end; simpl; tauto.
Qed.

Lemma empty_categories_lookup (c : string) :
  In c category_labels -> empty_categories !! c = Some [].
Proof.
  intros Hc. simpl in Hc.
  repeat (destruct Hc as [<-|Hc]; [reflexivity|]). contradiction.
Qed.

Lemma category_loop_lookup (ks : list string) (acc : gmap string (list string))
    (c : string) (names : list string) :
  acc !! c = Some names ->
  fold_left category_append ks acc !! c =
  Some (names ++ filter (fun k => category_of k = c) ks)%list.
Proof.
  revert acc names. induction ks as [|k ks IH]; intros acc names Hacc; simpl.
  - now rewrite app_nil_r.
  - destruct (decide (category_of k = c)) as [Heq|Hne].
    + rewrite (IH _ (names ++ [k])%list).
      * rewrite filter_cons_True by exact Heq. now rewrite <- app_assoc.
      * unfold category_append. rewrite Heq, lookup_alter_eq, Hacc. reflexivity.
    + rewrite (IH _ names).
      * now rewrite filter_cons_False by exact Hne.
      * unfold category_append. now rewrite lookup_alter_ne by exact Hne.
Qed.

Lemma categories_lookup {V : Type} (self : reader V) (c : string) :
  In c category_labels ->
  get_variable_categories self !! c =
  Some (filter (fun k => category_of k = c) (keys self)).
Proof.
  intros Hc. unfold get_variable_categories.
  now rewrite (category_loop_lookup _ _ c [] (empty_categories_lookup c Hc)).
Qed.

Lemma control_before_fault (key : string) :
  PyStr.any_in control_keywords (PyStr.lower key) = true ->
  category_of key <> "fault".
Proof.
  intros Hc. unfold category_of. rewrite Hc.
  repeat match goal with
         | |- context [if ?b then _ else _] => destruct b
         end; discriminate.
Qed.

(** C6: the classifier is the first-match reading of the ordered rule
    table, so every name gets one of the seven labels and sits in the list
    of exactly that label; a name with a control keyword is never classified
    as fault, and is classified as control unless one of the four earlier
    rules matches; ["setpoint_fault"] is control and ["busVoltage"] is
    electrical. *)
Theorem C6_classify_first_matching_rule {V : Type} (self : reader V) (key : string) :
  category_of key = first_match rule_table (PyStr.lower key) /\
  In (category_of key) category_labels /\
  (forall c, In c category_labels ->
     get_variable_categories self !! c =
     Some (filter (fun k => category_of k = c) (keys self))) /\
  (PyStr.any_in control_keywords (PyStr.lower key) = true ->
   PyStr.any_in fault_keywords (PyStr.lower key) = true ->
   category_of key <> "fault" /\
   (PyStr.contains "time" (PyStr.lower key) = false ->
    PyStr.any_in electrical_keywords (PyStr.lower key) = false ->
    PyStr.any_in thermal_keywords (PyStr.lower key) = false ->
    PyStr.any_in mechanical_keywords (PyStr.lower key) = false ->
    category_of key = "control")) /\
  category_of "setpoint_fault" = "control" /\
  category_of "busVoltage" = "electrical".
Proof.
  split; [apply category_of_first_match|].
  split; [apply category_of_label|].
  split; [intros c Hc; now apply categories_lookup|].
  split; [|split; reflexivity].
  intros Hc Hf. split; [now apply control_before_fault|].
  intros Ht He Hth Hm. unfold category_of. now rewrite Ht, He, Hth, Hm, Hc.
Qed.

Lemma C6_classify_first_matching_rule_witness :
  category_of "setpoint_fault" = "control" /\
  get_variable_categories named_reader !! "control" = Some ["setpoint_fault"] /\
  get_variable_categories named_reader !! "electrical" =
    Some ["busVoltage"; "busVoltage"] /\
  get_variable_categories named_reader !! "fault" = Some ["tripFlag"].
Proof.
  destruct (C6_classify_first_matching_rule named_reader "setpoint_fault")
    as (_ & _ & Hlists & Hboth & _).
  destruct (Hboth eq_refl eq_refl) as [_ Hcontrol].
  split; [apply Hcontrol; reflexivity|].
  split; [|split].
  - rewrite Hlists by (simpl; tauto). reflexivity.
  - rewrite Hlists by (simpl; tauto). reflexivity.
  - rewrite Hlists by (simpl; tauto). reflexivity.
Defined.

(** ** Statistics *)

Section Statistics.
Context {V : Type} (np_min np_max np_mean np_std : list V -> V).

Lemma stats_none (self : reader V) (var_name : string) :
  get_variable_stats np_min np_max np_mean np_std self var_name = None <->
  values self !! var_name = None \/
  exists series, values self !! var_name = Some series /\ length series = 0.
Proof.
  unfold get_variable_stats.
  destruct (values self !! var_name) as [series|].
  - destruct (Nat.eqb_spec (length series) 0) as [Hz|Hnz].
    + split; [intros _; right; eauto | reflexivity].
    + split; [discriminate|]. intros [Hn|(s & [= <-] & Hs)]; congruence.
  - split; [intros _; now left | reflexivity].
Qed.

Lemma stats_some (self : reader V) (var_name : string) (series : list V) :
  values self !! var_name = Some series ->
  length series <> 0 ->
  get_variable_stats np_min np_max np_mean np_std self var_name =
  Some {| stat_min := np_min series;
          stat_max := np_max series;
          stat_mean := np_mean series;
          stat_std := np_std series;
          stat_size := length series |}.
Proof.
  intros Hs Hlen. unfold get_variable_stats. rewrite Hs.
  destruct (Nat.eqb_spec (length series) 0); [contradiction | reflexivity].
Qed.

End Statistics.

(** ** Loading *)

(** C5, as amended: a failed load returns one failure outcome whose
    message is the failure prefix followed by the text of the exception, and
    leaves the name list, the resolved table and the time vector exactly as
    they were, never half-built.  The file path is the path of the failed
    load; the raw data is untouched when the deserializer raised and is the
    new file's when name decoding raised.  A successful load replaces the
    table by the complete one resolved from the new file. *)
Theorem C5_failed_load_keeps_table {V : Type} `{Sample V}
    (loadmat : string -> result (raw V)) (exn_str : exn -> string)
    (self self' : reader V) (path msg : string) (success : bool) :
  load_data loadmat exn_str self path = (self', (success, msg)) ->
  (success = false ->
   (exists e,
      msg = failure_message exn_str e /\
      ((loadmat path = Raise e /\ data self' = data self) \/
       (exists d,
          loadmat path = Ok d /\ data self' = Some d /\
          _parse_keys_original (set_data (set_file_path self path) d) =
          Raise e))) /\
   file_path self' = Some path /\
   keys self' = keys self /\
   values self' = values self /\
   time_vector self' = time_vector self) /\
  (success = true ->
   exists d, loadmat path = Ok d /\ data self' = Some d /\
             file_path self' = Some path /\
             values self' = resolve self').
Proof.
  unfold load_data. intros Hload.
  destruct (loadmat path) as [d|e] eqn:Hmat.
  - destruct (_parse_keys_original (set_data (set_file_path self path) d))
      as [decoded|e] eqn:Hkeys.
    + injection Hload as <- <- <-. split; [discriminate|]. intros _.
      exists d. split; [reflexivity|].
      unfold _parse_keys_original, data_item in Hkeys. simpl in Hkeys.
      destruct (getitem "name" (name d)) as [nm|]; [|discriminate]. simpl in Hkeys.
      destruct (Np.index nm 0) as [row0|]; [|discriminate]. simpl in Hkeys.
      injection Hkeys as <-.
      unfold _extract_time_original, _parse_values_original.
      destruct (_ ≫= _); repeat split; reflexivity.
    + injection Hload as <- <- <-. split; [|discriminate]. intros _.
      split; [|repeat split; reflexivity].
      exists e. split; [reflexivity|]. right. exists d. repeat split. exact Hkeys.
  - injection Hload as <- <- <-. split; [|discriminate]. intros _.
    split; [|repeat split; reflexivity].
    exists e. split; [reflexivity|]. left. split; reflexivity.
Qed.

Lemma C5_failed_load_keeps_table_witness :
  (load_data nameless_loadmat plain_str plain_reader "run.mat").2 =
    (false, "加载失败: 'name'") /\
  values (load_data nameless_loadmat plain_str plain_reader "run.mat").1 =
    values plain_reader /\
  values (load_data gap_loadmat plain_str plain_reader "run.mat").1 !! "p" =
    Some [1.5%float].
Proof.
  destruct (load_data nameless_loadmat plain_str plain_reader "run.mat")
    as [failed [ok msg]] eqn:Hfail.
  destruct (C5_failed_load_keeps_table nameless_loadmat plain_str plain_reader
              failed "run.mat" msg ok Hfail) as [Hf _].
  vm_compute in Hfail. injection Hfail as <- <- <-.
  destruct (Hf eq_refl) as (_ & _ & _ & Hvals & _).
  split; [reflexivity|]. split; [exact Hvals|].
  vm_compute. reflexivity.
Defined.

(** C5 as stated fails: after a load that the deserializer rejects the
    reader carries the rejected path, and after a load whose file has no
    [name] entry it carries the new raw data next to the old names and
    table. *)
Lemma C5_failed_load_changes_reader_counterexample :
  (load_data failing_loadmat plain_str init "bad.mat").2.1 = false /\
  file_path (V := float) init = None /\
  file_path (load_data failing_loadmat plain_str init "bad.mat").1 = Some "bad.mat" /\
  (load_data nameless_loadmat plain_str plain_reader "run.mat").2.1 = false /\
  data plain_reader = None /\
  data (load_data nameless_loadmat plain_str plain_reader "run.mat").1 =
    Some nameless_raw /\
  keys (load_data nameless_loadmat plain_str plain_reader "run.mat").1 = ["a"; "b"].
Proof. repeat split; vm_compute; reflexivity. Qed.

(** * Further properties of the reader *)

(** ** Searching *)

Lemma prefix_append (sub s : string) :
  String.prefix sub s = true <-> exists post, s = sub ++ post.
Proof.
  revert sub. induction s as [|a s IH]; intros sub.
  - destruct sub as [|b sub]; simpl.
    + split; [intros _; now exists "" | reflexivity].
    + split; [discriminate | intros [post Hpost]; discriminate].
  - destruct sub as [|b sub]; simpl.
    + split; [intros _; now exists (String a s) | reflexivity].
    + destruct (Ascii.ascii_dec b a) as [->|Hne].
      * rewrite IH. split; intros [post Hpost]; exists post.
        -- now rewrite append_cons, Hpost.
        -- rewrite append_cons in Hpost. now injection Hpost.
      * split; [discriminate|]. intros [post Hpost].
        rewrite append_cons in Hpost. injection Hpost as Hb _. congruence.
Qed.

Lemma contains_empty (sub : string) :
  PyStr.contains sub "" = String.prefix sub "".
Proof. simpl. apply orb_false_r. Qed.

Lemma contains_cons (sub : string) (a : ascii) (s : string) :
  PyStr.contains sub (String a s) =
  (String.prefix sub (String a s) || PyStr.contains sub s)%bool.
Proof. reflexivity. Qed.

(** [sub in s] holds exactly when [sub] occurs in [s] as a block. *)
Lemma contains_substring (sub s : string) :
  PyStr.contains sub s = true <-> exists pre post, s = pre ++ sub ++ post.
Proof.
  induction s as [|a s IH].
  - rewrite contains_empty, prefix_append. split.
    + intros [post Hpost]. now exists "", post.
    + intros (pre & post & Hs). destruct pre as [|b pre]; [now exists post|].
      rewrite append_cons in Hs. discriminate.
  - rewrite contains_cons, orb_true_iff, prefix_append, IH. split.
    + intros [[post Hpost]|(pre & post & Hs)].
      * now exists "", post.
      * exists (String a pre), post. now rewrite append_cons, Hs.
    + intros (pre & post & Hs). destruct pre as [|b pre].
      * left. now exists post.
      * right. rewrite append_cons in Hs. injection Hs as _ Hs. now exists pre, post.
Qed.

Lemma lower_char_idempotent (a : ascii) :
  PyStr.lower_char (PyStr.lower_char a) = PyStr.lower_char a.
Proof. destruct a as [[] [] [] [] [] [] [] []]; reflexivity. Qed.

Lemma lower_idempotent (s : string) : PyStr.lower (PyStr.lower s) = PyStr.lower s.
Proof.
  induction s as [|a s IH]; simpl; [reflexivity|].
  now rewrite lower_char_idempotent, IH.
Qed.

(** X1: [search_variables] returns the names whose lower-cased form has
    the lower-cased pattern as a contiguous block, all of them and only
    them, in the order of [keys]. *)
Theorem X1_search_all_and_only {V : Type} (self : reader V) (pattern : string) :
  search_variables self pattern `sublist_of` keys self /\
  forall key,
    key ∈ search_variables self pattern <->
    key ∈ keys self /\
    exists pre post, PyStr.lower key = pre ++ PyStr.lower pattern ++ post.
Proof.
  unfold search_variables. split; [apply sublist_filter|].
  intros key. rewrite list_elem_of_filter, Is_true_true, contains_substring.
  tauto.
Qed.

(** X2: the case of the pattern does not matter, and the empty pattern
    matches every name. *)
Theorem X2_search_case_and_empty_pattern {V : Type} (self : reader V)
    (pattern : string) :
  search_variables self (PyStr.lower pattern) = search_variables self pattern /\
  search_variables self "" = keys self.
Proof.
  unfold search_variables. split.
  - now rewrite lower_idempotent.
  - simpl. induction (keys self) as [|key ks IH]; [reflexivity|].
    rewrite filter_cons_True; [now rewrite IH|].
    apply Is_true_true. apply contains_substring. now exists "", (PyStr.lower key).
Qed.

(** ** Loading *)

Section Loading.
Context {V : Type} `{Sample V}.
Variable loadmat : string -> result (raw V).
Variable exn_str : exn -> string.

(** The name decoder looks at nothing but the [name] entry of the data. *)
Lemma parse_keys_cases (self : reader V) (d : raw V) :
  data self = Some d ->
  match name d with
  | Some (row0 :: rest) =>
      _parse_keys_original self = Ok (set_keys self (decode (row0 :: rest) row0))
  | Some [] => _parse_keys_original self = Raise IndexError
  | None => _parse_keys_original self = Raise (KeyError "name")
  end.
Proof.
  intros Hd. unfold _parse_keys_original, data_item. rewrite Hd.
  destruct (name d) as [[|row0 rest]|]; reflexivity.
Qed.

Lemma extract_time_vector (self : reader V) :
  time_vector (_extract_time_original self) =
  match data self with
  | Some d =>
      match data_2 d with
      | Some (row :: _) => row
      | Some [] => []
      | None => []
      end
  | None => []
  end.
Proof.
  unfold _extract_time_original, data_item.
  destruct (data self) as [d|]; [|reflexivity].
  destruct (data_2 d) as [[|row rows]|]; reflexivity.
Qed.

Lemma extract_time_keeps (self : reader V) :
  file_path (_extract_time_original self) = file_path self /\
  data (_extract_time_original self) = data self /\
  keys (_extract_time_original self) = keys self /\
  values (_extract_time_original self) = values self.
Proof.
  unfold _extract_time_original. destruct (_ ≫= _); repeat split.
Qed.

(** The resolver looks at nothing but the data and the names. *)
Lemma resolve_entry_data (self other : reader V) (index : nat) :
  data self = data other -> resolve_entry self index = resolve_entry other index.
Proof.
  intros Hd. unfold resolve_entry, data_block, data_item. now rewrite Hd.
Qed.

Lemma resolve_data_keys (self other : reader V) :
  data self = data other -> keys self = keys other ->
  resolve self = resolve other.
Proof.
  intros Hd Hk. unfold resolve. rewrite Hk.
  generalize (∅ : gmap string (list V)) as acc.
  induction (enumerate (keys other)) as [|entry entries IH]; intros acc; simpl.
  - reflexivity.
  - unfold resolve_step at 2 4.
    rewrite (resolve_entry_data self other entry.1 Hd). apply IH.
Qed.

(** The outcome of a load whose file has a non-empty [name] array. *)
Lemma load_data_ok (self : reader V) (path : string) (d : raw V)
    (row0 : string) (rest : list string) :
  loadmat path = Ok d ->
  name d = Some (row0 :: rest) ->
  load_data loadmat exn_str self path =
  (let decoded := set_keys (set_data (set_file_path self path) d)
                           (decode (row0 :: rest) row0) in
   let self' := _extract_time_original (_parse_values_original decoded) in
   (self', (true, success_message self'))).
Proof.
  intros Hmat Hname. unfold load_data. rewrite Hmat.
  pose proof (parse_keys_cases (set_data (set_file_path self path) d) d eq_refl) as Hk.
  rewrite Hname in Hk. rewrite Hk. reflexivity.
Qed.

Lemma load_data_success_inv (self : reader V) (path : string) :
  (load_data loadmat exn_str self path).2.1 = true ->
  exists d row0 rest, loadmat path = Ok d /\ name d = Some (row0 :: rest).
Proof.
  unfold load_data. destruct (loadmat path) as [d|e] eqn:Hmat; [|discriminate].
  pose proof (parse_keys_cases (set_data (set_file_path self path) d) d eq_refl) as Hk.
  destruct (name d) as [[|row0 rest]|] eqn:Hname; rewrite Hk; try discriminate.
  intros _. now exists d, row0, rest.
Qed.

(** A successful load does not look at the reader it starts from. *)
Lemma load_data_independent (self other : reader V) (path : string) :
  (load_data loadmat exn_str self path).2.1 = true ->
  load_data loadmat exn_str other path = load_data loadmat exn_str self path.
Proof.
  intros Hok.
  destruct (load_data_success_inv self path Hok)
    as (d & row0 & rest & Hmat & Hname).
  rewrite (load_data_ok self path d row0 rest Hmat Hname).
  rewrite (load_data_ok other path d row0 rest Hmat Hname).
  reflexivity.
Qed.

End Loading.

(** X3: a load succeeds exactly when the deserializer returns a file whose
    [name] entry has at least one row.  The reader then holds the path, the
    file, one name per column of that row but the last, the table resolved
    from them and row 0 of [data_2] (nothing when [data_2] is missing or
    empty), and the message counts the names. *)
Theorem X3_load_success {V : Type} `{Sample V}
    (loadmat : string -> result (raw V)) (exn_str : exn -> string)
    (self : reader V) (path : string) :
  ((load_data loadmat exn_str self path).2.1 = true <->
   exists d row0 rest, loadmat path = Ok d /\ name d = Some (row0 :: rest)) /\
  (forall d row0 rest,
     loadmat path = Ok d -> name d = Some (row0 :: rest) ->
     let self' := (load_data loadmat exn_str self path).1 in
     file_path self' = Some path /\
     data self' = Some d /\
     keys self' = decode (row0 :: rest) row0 /\
     length (keys self') = String.length row0 - 1 /\
     values self' = resolve self' /\
     time_vector self' =
       match data_2 d with
       | Some (row :: _) => row
       | Some [] => []
       | None => []
       end /\
     (load_data loadmat exn_str self path).2.2 =
       "成功加载 " ++ pretty (String.length row0 - 1) ++ " 个变量").
Proof.
  split; [split|].
  - apply load_data_success_inv.
  - intros (d & row0 & rest & Hmat & Hname).
    now rewrite (load_data_ok loadmat exn_str self path d row0 rest Hmat Hname).
  - intros d row0 rest Hmat Hname.
    rewrite (load_data_ok loadmat exn_str self path d row0 rest Hmat Hname).
    cbn zeta. cbn [fst snd].
    set (decoded := set_keys _ _).
    destruct (extract_time_keeps (_parse_values_original decoded))
      as (Hp & Hd & Hk & Hv).
    unfold success_message.
    rewrite (resolve_data_keys _ decoded) by (rewrite ?Hd, ?Hk; reflexivity).
    rewrite Hp, Hd, Hk, Hv, extract_time_vector. simpl data. simpl keys.
    rewrite decode_length. repeat split; reflexivity.
Qed.

Lemma X3_load_success_witness :
  keys (load_data der_loadmat plain_str init "der.mat").1 =
    ["der(x[1])"; "der(x[2])"] /\
  time_vector (load_data der_loadmat plain_str init "der.mat").1 = [0%float] /\
  (load_data der_loadmat plain_str init "der.mat").2.2 = "成功加载 2 个变量".
Proof.
  destruct (X3_load_success der_loadmat plain_str init "der.mat") as [_ Hpost].
  destruct (Hpost der_raw "dd?" ["ee?"; "rr?"; "((?"; "xx?"; "[[?"; "12?"; "]]?"; "))?"; ""]
              eq_refl eq_refl) as (_ & _ & Hk & _ & _ & Ht & Hm).
  split; [|split].
  - rewrite Hk. reflexivity.
  - rewrite Ht. reflexivity.
  - rewrite Hm. reflexivity.
Defined.

(** X4: a successful load replaces the whole state: the reader it leaves
    and its outcome do not depend on the reader it started from. *)
Theorem X4_load_replaces_state {V : Type} `{Sample V}
    (loadmat : string -> result (raw V)) (exn_str : exn -> string)
    (self other : reader V) (path : string) :
  (load_data loadmat exn_str self path).2.1 = true ->
  load_data loadmat exn_str other path = load_data loadmat exn_str self path.
Proof. apply load_data_independent. Qed.

Lemma X4_load_replaces_state_witness :
  load_data der_loadmat plain_str plain_reader "der.mat" =
  load_data der_loadmat plain_str init "der.mat".
Proof.
  apply (X4_load_replaces_state der_loadmat plain_str init plain_reader "der.mat").
  reflexivity.
Defined.

(** X5: loading the same file again changes nothing, whether the load
    succeeds or fails: the second load returns the same reader and the same
    outcome as the first. *)
Theorem X5_load_twice {V : Type} `{Sample V}
    (loadmat : string -> result (raw V)) (exn_str : exn -> string)
    (self : reader V) (path : string) :
  load_data loadmat exn_str (load_data loadmat exn_str self path).1 path =
  load_data loadmat exn_str self path.
Proof.
  destruct (loadmat path) as [d|e] eqn:Hmat.
  - destruct (name d) as [[|row0 rest]|] eqn:Hname.
    + unfold load_data. rewrite Hmat.
      pose proof (parse_keys_cases (set_data (set_file_path self path) d) d eq_refl)
        as Hk.
      rewrite Hname in Hk. rewrite Hk. cbn [fst].
      pose proof (parse_keys_cases
                    (set_data (set_file_path (set_data (set_file_path self path) d)
                                             path) d) d eq_refl) as Hk2.
      rewrite Hname in Hk2. rewrite Hk2. reflexivity.
    + apply load_data_independent.
      now rewrite (load_data_ok loadmat exn_str self path d row0 rest Hmat Hname).
    + unfold load_data. rewrite Hmat.
      pose proof (parse_keys_cases (set_data (set_file_path self path) d) d eq_refl)
        as Hk.
      rewrite Hname in Hk. rewrite Hk. cbn [fst].
      pose proof (parse_keys_cases
                    (set_data (set_file_path (set_data (set_file_path self path) d)
                                             path) d) d eq_refl) as Hk2.
      rewrite Hname in Hk2. rewrite Hk2. reflexivity.
  - unfold load_data. rewrite Hmat. reflexivity.
Qed.

(** ** The resolved table *)

Section Table.
Context {V : Type} `{Sample V}.

(** Whatever the table holds under a name was stored by an index of that
    name. *)
Lemma resolve_loop_origin (self : reader V) (ks : list string) (nm : string)
    (series : list V) :
  fold_left (resolve_step self) (enumerate ks) ∅ !! nm = Some series ->
  exists i, ks !! i = Some nm /\ stored self i = Some series.
Proof.
  induction ks as [|k ks IH] using rev_ind; intros Hlook.
  - change ((∅ : gmap string (list V)) !! nm = Some series) in Hlook.
    rewrite lookup_empty in Hlook. discriminate.
  - rewrite resolve_loop_snoc in Hlook.
    destruct (stored self (length ks)) as [dataV|] eqn:Hst.
    + rewrite (resolve_step_stored _ _ _ _ _ Hst) in Hlook.
      destruct (decide (k = nm)) as [->|Hne].
      * rewrite lookup_insert_eq in Hlook. injection Hlook as ->.
        exists (length ks). split; [|exact Hst].
        apply list_lookup_middle. reflexivity.
      * rewrite lookup_insert_ne in Hlook by exact Hne.
        destruct (IH Hlook) as (i & Hi & Hsi). exists i. split; [|exact Hsi].
        now apply lookup_app_l_Some.
    + rewrite (resolve_step_failed _ _ _ _ Hst) in Hlook.
      destruct (IH Hlook) as (i & Hi & Hsi). exists i. split; [|exact Hsi].
      now apply lookup_app_l_Some.
Qed.

(** A stored series is a row of the block its selector names. *)
Lemma stored_origin (self : reader V) (i : nat) (series : list V) :
  stored self i = Some series ->
  exists d sel row_index block,
    data self = Some d /\
    info_pair d i = Some (sel, row_index) /\
    (sel = 1 \/ sel = 2)%Z /\
    selected_block d sel = Some block /\
    Np.index block (row_index - 1) = Ok series /\
    series ∈ block.
Proof.
  intros Hst. destruct (data self) as [d|] eqn:Hd.
  - rewrite (stored_pair self d i Hd) in Hst.
    destruct (info_pair d i) as [[sel row_index]|] eqn:Hp; [|discriminate].
    destruct (selected_block d sel) as [block|] eqn:Hb; [|discriminate].
    destruct (Np.index block (row_index - 1)) as [dataV|e] eqn:Hrow; [|discriminate].
    injection Hst as ->. exists d, sel, row_index, block.
    repeat split; try assumption; try reflexivity.
    + unfold selected_block in Hb.
      destruct (Z.eqb_spec sel 1); [now left|].
      destruct (Z.eqb_spec sel 2); [now right | discriminate].
    + destruct (decide (- Z.of_nat (length block) <= row_index - 1
                        < Z.of_nat (length block))%Z) as [Hin|Hout].
      * destruct (np_index_in_range block (row_index - 1) Hin) as (x & Hx & Hmem).
        congruence.
      * rewrite (np_index_out_of_range block (row_index - 1) Hout) in Hrow.
        discriminate.
  - unfold stored, resolve_entry, data_item in Hst. rewrite Hd in Hst. discriminate.
Qed.

Lemma resolve_origin (self : reader V) (nm : string) (series : list V) :
  resolve self !! nm = Some series ->
  exists d i sel row_index block,
    data self = Some d /\
    keys self !! i = Some nm /\
    info_pair d i = Some (sel, row_index) /\
    (sel = 1 \/ sel = 2)%Z /\
    selected_block d sel = Some block /\
    Np.index block (row_index - 1) = Ok series /\
    series ∈ block.
Proof.
  intros Hlook.
  destruct (resolve_loop_origin self (keys self) nm series Hlook) as (i & Hi & Hst).
  destruct (stored_origin self i series Hst)
    as (d & sel & row_index & block & Hd & Hp & Hsel & Hb & Hrow & Hin).
  exists d, i, sel, row_index, block. repeat split; assumption.
Qed.

End Table.

(** X6: the resolved table holds nothing of its own: every entry sits
    under a decoded name, at an index whose selector is 1 or 2, and its
    series is a row of the block that selector names. *)
Theorem X6_table_entries_come_from_blocks {V : Type} `{Sample V}
    (self : reader V) (nm : string) (series : list V) :
  resolve self !! nm = Some series ->
  exists d i sel row_index block,
    data self = Some d /\
    keys self !! i = Some nm /\
    info_pair d i = Some (sel, row_index) /\
    (sel = 1 \/ sel = 2)%Z /\
    selected_block d sel = Some block /\
    Np.index block (row_index - 1) = Ok series /\
    series ∈ block.
Proof. apply resolve_origin. Qed.

Lemma X6_table_entries_come_from_blocks_witness :
  exists i sel row_index,
    keys gap_reader !! i = Some "p" /\
    info_pair gap_raw i = Some (sel, row_index) /\
    (sel = 1 \/ sel = 2)%Z.
Proof.
  destruct (X6_table_entries_come_from_blocks gap_reader "p" [1.5%float] eq_refl)
    as (d & i & sel & row_index & block & Hd & Hi & Hp & Hsel & _).
  injection Hd as <-. exists i, sel, row_index. repeat split; assumption.
Defined.

(** X7: after a successful load of a file whose [data_2] is rectangular,
    every series of the table is a row of [data_1] or has exactly as many
    samples as the time vector. *)
Theorem X7_loaded_series_time_aligned {V : Type} `{Sample V}
    (loadmat : string -> result (raw V)) (exn_str : exn -> string)
    (self : reader V) (path : string) (d : raw V) :
  (load_data loadmat exn_str self path).2.1 = true ->
  loadmat path = Ok d ->
  (forall block2, data_2 d = Some block2 -> exists n, Np.row_length block2 n) ->
  forall nm series,
    values (load_data loadmat exn_str self path).1 !! nm = Some series ->
    (exists block1, data_1 d = Some block1 /\ series ∈ block1) \/
    length series = length (time_vector (load_data loadmat exn_str self path).1).
Proof.
  intros Hok Hmat Hrect nm series Hlook.
  destruct (load_data_success_inv loadmat exn_str self path Hok)
    as (d' & row0 & rest & Hmat' & Hname).
  rewrite Hmat in Hmat'. injection Hmat' as <-.
  rewrite (load_data_ok loadmat exn_str self path d row0 rest Hmat Hname) in *.
  cbn zeta in *. cbn [fst snd] in *.
  set (decoded := set_keys _ _) in *.
  destruct (extract_time_keeps (_parse_values_original decoded)) as (_ & _ & _ & Hv).
  rewrite Hv in Hlook. rewrite extract_time_vector. simpl in Hlook. simpl data.
  destruct (resolve_origin decoded nm series Hlook)
    as (d0 & i & sel & row_index & block & Hd & _ & _ & Hsel & Hb & _ & Hin).
  injection Hd as <-. unfold selected_block in Hb.
  destruct Hsel as [-> | ->]; simpl in Hb.
  - left. now exists block.
  - right. rewrite Hb. destruct (Hrect block Hb) as [n Hn].
    unfold Np.row_length in Hn. rewrite Forall_forall in Hn.
    destruct block as [|row rows]; [now apply not_elem_of_nil in Hin|].
    rewrite (Hn series Hin). symmetry. apply Hn. left.
Qed.

Lemma X7_loaded_series_time_aligned_witness :
  (exists block1, data_1 der_raw = Some block1 /\ [3%float] ∈ block1) \/
  length [3%float] =
  length (time_vector (load_data der_loadmat plain_str init "der.mat").1).
Proof.
  apply (X7_loaded_series_time_aligned der_loadmat plain_str init "der.mat"
           der_raw eq_refl eq_refl) with (nm := "der(x[1])").
  - intros block2 Hb. injection Hb as <-. exists 1. repeat constructor.
  - vm_compute. reflexivity.
Defined.

(** ** Expressions and reading *)

Section Reading.
Context {V : Type} `{Sample V}.

Lemma values_get_nonempty (self : reader V) (key : string) :
  truthy (values_get self key) = true ->
  values self !! key = Some (values_get self key).
Proof.
  unfold values_get. destruct (values self !! key); [reflexivity | discriminate].
Qed.

Lemma truthy_nonempty {A} (l : list A) : truthy l = true <-> l <> [].
Proof. destruct l; simpl; split; congruence. Qed.

Lemma read_one_single (self : reader V) (_rk : string) :
  (read_variables self [_rk]).1 = [read_one self _rk].
Proof. reflexivity. Qed.

End Reading.

(** X8: the evaluator invents nothing: a non-empty result is always the
    elementwise difference of two non-empty table series of equal length,
    named by the trimmed sides of the one ['-'] of a key that contains a
    ['['], and it has their length. *)
Theorem X8_evaluate_nonempty_is_difference {V : Type} `{Sample V}
    (self : reader V) (key : string) :
  _evaluate_expression self key <> [] ->
  exists lhs rhs v1 v2,
    PyStr.contains "[" key = true /\
    PyStr.split "-" key = [lhs; rhs] /\
    values self !! PyStr.strip lhs = Some v1 /\
    values self !! PyStr.strip rhs = Some v2 /\
    v1 <> [] /\
    length v1 = length v2 /\
    _evaluate_expression self key = zip_with s_sub v1 v2 /\
    length (_evaluate_expression self key) = length v1.
Proof.
  intros Hne.
  destruct (PyStr.contains "-" key) eqn:Hm;
    [|exfalso; apply Hne, evaluate_unsupported; now left].
  destruct (PyStr.contains "[" key) eqn:Hb;
    [|exfalso; apply Hne, evaluate_unsupported; right; now left].
  destruct (PyStr.split "-" key) as [|lhs [|rhs [|third parts]]] eqn:Hsplit;
    try (exfalso; apply Hne, evaluate_unsupported; right; right;
         rewrite Hsplit; simpl; lia).
  assert (Hev : _evaluate_expression self key =
                if (truthy (values_get self (PyStr.strip lhs))
                    && truthy (values_get self (PyStr.strip rhs))
                    && (length (values_get self (PyStr.strip lhs))
                        =? length (values_get self (PyStr.strip rhs)))%nat)%bool
                then zip_with s_sub (values_get self (PyStr.strip lhs))
                                    (values_get self (PyStr.strip rhs))
                else []).
  { unfold _evaluate_expression, evaluate_body. rewrite Hm, Hb, Hsplit. simpl.
    destruct (truthy _ && truthy _ && _)%bool eqn:Hc; [|reflexivity].
    apply andb_true_iff in Hc as [_ Hlen]. apply Nat.eqb_eq in Hlen.
    now rewrite (difference_zip _ _ Hlen). }
  destruct (truthy _ && truthy _ && _)%bool eqn:Hc in Hev; [|congruence].
  apply andb_true_iff in Hc as [Hc Hlen]. apply andb_true_iff in Hc as [H1 H2].
  apply Nat.eqb_eq in Hlen.
  exists lhs, rhs, (values_get self (PyStr.strip lhs)),
         (values_get self (PyStr.strip rhs)).
  split; [reflexivity|]. split; [reflexivity|].
  split; [now apply values_get_nonempty|].
  split; [now apply values_get_nonempty|].
  split; [now apply truthy_nonempty|].
  split; [exact Hlen|]. split; [exact Hev|].
  rewrite Hev, length_zip_with. lia.
Qed.

Lemma X8_evaluate_nonempty_is_difference_witness :
  exists lhs rhs,
    PyStr.split "-" "der(x[1])-der(x[2])" = [lhs; rhs] /\
    length (_evaluate_expression der_reader "der(x[1])-der(x[2])") = 1.
Proof.
  destruct (X8_evaluate_nonempty_is_difference der_reader "der(x[1])-der(x[2])")
    as (lhs & rhs & v1 & v2 & _ & Hsplit & H1 & _ & _ & _ & _ & Hlen).
  - vm_compute. discriminate.
  - exists lhs, rhs. split; [exact Hsplit|].
    injection Hsplit as <- <-. rewrite Hlen.
    vm_compute in H1. injection H1 as <-. reflexivity.
Defined.

(** X9: reading names in one request or one by one gives the same series:
    the answer to a concatenated request is the concatenation of the
    answers, and the entry of a name is what a request for that name alone
    returns. *)
Theorem X9_read_variables_batches {V : Type} `{Sample V}
    (self : reader V) (first second : list string) :
  (read_variables self (first ++ second)%list).1 =
    ((read_variables self first).1 ++ (read_variables self second).1)%list /\
  forall i _rk, (first ++ second)%list !! i = Some _rk ->
    (read_variables self (first ++ second)%list).1 !! i =
    (read_variables self [_rk]).1 !! 0.
Proof.
  rewrite !read_loop_map. split; [apply map_app|].
  intros i _rk Hi. rewrite read_loop_map, list_lookup_fmap, Hi. reflexivity.
Qed.

Lemma X9_read_variables_batches_witness :
  (read_variables indexed_reader (["a[1]"] ++ ["a[1]-b[1]"])%list).1 !! 1 =
  Some [4; 5; 6]%float.
Proof.
  destruct (X9_read_variables_batches indexed_reader ["a[1]"] ["a[1]-b[1]"])
    as [_ Hat].
  rewrite (Hat 1 "a[1]-b[1]" eq_refl). reflexivity.
Defined.

(** X10: for a name without operator characters the statistics and the
    reading agree: the statistics are absent exactly when the name reads as
    an empty series, and otherwise their count is the length of the series
    read. *)
Theorem X10_stats_agree_with_reading {V : Type} `{Sample V}
    (np_min np_max np_mean np_std : list V -> V)
    (self : reader V) (var_name : string) :
  _is_expression var_name = false ->
  (get_variable_stats np_min np_max np_mean np_std self var_name = None <->
   (read_variables self [var_name]).1 = [[]]) /\
  (forall st,
     get_variable_stats np_min np_max np_mean np_std self var_name = Some st ->
     exists series,
       (read_variables self [var_name]).1 = [series] /\
       series <> [] /\ stat_size st = length series).
Proof.
  intros Hexp. rewrite read_one_single. unfold read_one, values_get.
  rewrite Hexp. unfold get_variable_stats.
  destruct (values self !! var_name) as [series|]; simpl.
  - destruct series as [|x xs]; simpl.
    + split; [tauto | discriminate].
    + split; [split; discriminate|].
      intros st [= <-]. exists (x :: xs). repeat split. discriminate.
  - split; [tauto | discriminate].
Qed.

Lemma X10_stats_agree_with_reading_witness :
  get_variable_stats (hd 0%float) (hd 0%float) (hd 0%float) (hd 0%float)
                     stats_reader "e" = None /\
  (read_variables stats_reader ["e"]).1 = [[]].
Proof.
  destruct (X10_stats_agree_with_reading
              (hd 0%float) (hd 0%float) (hd 0%float) (hd 0%float)
              stats_reader "e" eq_refl) as [Hnone _].
  split; [reflexivity|]. apply Hnone. reflexivity.
Defined.

(** ** Counting categories *)

Lemma category_labels_nodup : NoDup category_labels.
Proof. apply (bool_decide_unpack _). vm_compute. exact I. Qed.

(** Among distinct labels exactly the one a name is classified under
    counts it. *)
Lemma filter_count_cons (labels : list string) (k : string) (ks : list string) :
  NoDup labels ->
  sum_list (map (fun c => length (filter (fun x => category_of x = c) (k :: ks))) labels) =
  (if bool_decide (category_of k ∈ labels) then 1 else 0) +
  sum_list (map (fun c => length (filter (fun x => category_of x = c) ks)) labels).
Proof.
  induction labels as [|c labels IH]; intros Hnd; [reflexivity|].
  apply NoDup_cons in Hnd as [Hc Hnd]. simpl map. simpl sum_list.
  rewrite (IH Hnd). destruct (decide (category_of k = c)) as [Heq|Hne].
  - rewrite filter_cons_True by exact Heq. simpl length.
    rewrite (bool_decide_eq_true_2 (category_of k ∈ c :: labels))
      by (rewrite Heq; left).
    rewrite (bool_decide_eq_false_2 (category_of k ∈ labels))
      by (now rewrite Heq).
    lia.
  - rewrite filter_cons_False by exact Hne.
    destruct (decide (category_of k ∈ labels)) as [Hin|Hout].
    + rewrite (bool_decide_eq_true_2 _ Hin).
      rewrite (bool_decide_eq_true_2 (category_of k ∈ c :: labels))
        by (now right).
      lia.
    + rewrite (bool_decide_eq_false_2 _ Hout).
      rewrite (bool_decide_eq_false_2 (category_of k ∈ c :: labels)).
      * lia.
      * rewrite elem_of_cons. intros [Heq|Hin]; congruence.
Qed.

Lemma filter_count_total (ks : list string) :
  sum_list (map (fun c => length (filter (fun x => category_of x = c) ks))
                category_labels) = length ks.
Proof.
  induction ks as [|k ks IH]; [reflexivity|].
  rewrite (filter_count_cons category_labels k ks category_labels_nodup), IH.
  rewrite bool_decide_eq_true_2; [reflexivity|].
  apply list_elem_of_In, category_of_label.
Qed.

Lemma category_loop_keys (ks : list string) (acc : gmap string (list string))
    (c : string) :
  is_Some (fold_left category_append ks acc !! c) <-> is_Some (acc !! c).
Proof.
  revert acc. induction ks as [|k ks IH]; intros acc; simpl; [reflexivity|].
  rewrite IH. unfold category_append. rewrite lookup_alter.
  case_decide as Hc; [|reflexivity].
  subst c. rewrite <- !not_eq_None_Some, fmap_None. reflexivity.
Qed.

Lemma empty_categories_keys (c : string) :
  is_Some (empty_categories !! c) <-> In c category_labels.
Proof.
  split.
  - intros [names Hc]. apply list_elem_of_In.
    destruct (decide (c ∈ category_labels)) as [Hin|Hout]; [exact Hin|].
    unfold empty_categories in Hc.
    rewrite not_elem_of_list_to_map_1 in Hc; [discriminate|].
    unfold category_labels in Hout. simpl.
    rewrite !elem_of_cons, elem_of_nil in *. tauto.
  - intros Hc. rewrite (empty_categories_lookup c Hc). eauto.
Qed.

(** X11: the dictionary of categories has the seven labels as its keys and
    no other, and the lengths of its seven lists add up to the number of
    names: no name is dropped and none is listed twice. *)
Theorem X11_categories_count {V : Type} (self : reader V) :
  (forall c, is_Some (get_variable_categories self !! c) <-> In c category_labels) /\
  sum_list (map (fun c => length (default [] (get_variable_categories self !! c)))
                category_labels) = length (keys self).
Proof.
  split.
  - intros c. unfold get_variable_categories.
    rewrite category_loop_keys. apply empty_categories_keys.
  - rewrite <- (filter_count_total (keys self)). f_equal.
    apply map_ext_in. intros c Hc. now rewrite (categories_lookup self c Hc).
Qed.

(** * Properties of the window and the plot widget *)

Import ModelicaMatAnalyzer.

(** ** Exporting *)

Lemma dict_get_set_eq {A} (k : string) (v : A) (d : list (string * A)) :
  dict_get k (dict_set k v d) = Some v.
Proof.
  induction d as [|[k' v'] d IH]; simpl.
  - now rewrite String.eqb_refl.
  - destruct (String.eqb_spec k' k) as [->|Hne]; simpl.
    + now rewrite String.eqb_refl.
    + destruct (String.eqb_spec k' k); [contradiction | exact IH].
Qed.

Lemma dict_get_set_ne {A} (k j : string) (v : A) (d : list (string * A)) :
  k <> j -> dict_get j (dict_set k v d) = dict_get j d.
Proof.
  intros Hne. induction d as [|[k' v'] d IH]; simpl.
  - destruct (String.eqb_spec k j); [contradiction | reflexivity].
  - destruct (String.eqb_spec k' k) as [->|Hk]; simpl.
    + destruct (String.eqb_spec k j); [contradiction | reflexivity].
    + now rewrite IH.
Qed.

Lemma dict_set_entries {A} (k : string) (v : A) (d : list (string * A))
    (entry : string * A) :
  entry ∈ dict_set k v d -> entry ∈ d \/ entry = (k, v).
Proof.
  induction d as [|[k' v'] d IH]; simpl.
  - rewrite list_elem_of_singleton. now right.
  - destruct (String.eqb_spec k' k) as [->|Hk]; rewrite !elem_of_cons.
    + intros [-> | Hin]; [now right | left; now right].
    + intros [-> | Hin]; [left; now left|].
      destruct (IH Hin) as [Hd | ->]; [left; now right | now right].
Qed.

Lemma dict_set_keys {A} (k : string) (v : A) (d : list (string * A)) :
  (dict_set k v d).*1 = if bool_decide (k ∈ d.*1) then d.*1 else (d.*1 ++ [k])%list.
Proof.
  induction d as [|[k' v'] d IH]; [reflexivity|]. cbn [dict_set].
  destruct (String.eqb_spec k' k) as [->|Hk]; rewrite !fmap_cons; cbn [fst].
  - rewrite bool_decide_eq_true_2 by left. reflexivity.
  - rewrite IH. destruct (decide (k ∈ d.*1)) as [Hin|Hout].
    + rewrite !bool_decide_eq_true_2; [reflexivity | now right | exact Hin].
    + rewrite !bool_decide_eq_false_2; [reflexivity | | exact Hout].
      rewrite elem_of_cons. intros [-> | Hin]; contradiction.
Qed.

Lemma dict_set_nodup {A} (k : string) (v : A) (d : list (string * A)) :
  NoDup d.*1 -> NoDup (dict_set k v d).*1.
Proof.
  intros Hnd. rewrite dict_set_keys. case_bool_decide as Hin; [exact Hnd|].
  apply NoDup_app. split; [exact Hnd|]. split.
  - intros x Hx Hk. apply list_elem_of_singleton in Hk. now subst.
  - apply NoDup_singleton.
Qed.

Lemma dict_set_head {A} (k : string) (v : A) (d : list (string * A)) (h : string) :
  (exists col rest, d = (h, col) :: rest) ->
  exists col rest, dict_set k v d = (h, col) :: rest.
Proof.
  intros (col & rest & ->). simpl.
  destruct (String.eqb_spec h k); eauto.
Qed.

Section ExportData.
Context {V : Type} `{Sample V}.

Lemma zip_with_map {A B} (f : A -> B) (l : list A) :
  zip l (map f l) = map (fun x => (x, f x)) l.
Proof. induction l as [|x l IH]; simpl; [reflexivity | now rewrite IH]. Qed.

Lemma fold_left_map {A B C} (f : C -> B -> C) (g : A -> B) (l : list A) (c : C) :
  fold_left f (map g l) c = fold_left (fun acc x => f acc (g x)) l c.
Proof. revert c. induction l as [|x l IH]; intros c; simpl; [reflexivity | apply IH]. Qed.

(** The export loop, name by name. *)
Lemma export_data_fold (reader : reader V) (selected : list string) :
  export_data reader selected =
  fold_left (fun d var => if exportable reader var
                          then dict_set var (read_one reader var) d else d)
            selected [("time", time_vector reader)].
Proof.
  unfold export_data. rewrite read_loop_map. cbn [snd read_variables].
  rewrite zip_with_map, fold_left_map. reflexivity.
Qed.

Lemma export_loop_frame (reader : reader V) (selected : list string)
    (d : list (string * list V)) :
  (exists col rest, d = ("time", col) :: rest) ->
  NoDup d.*1 ->
  (forall k col, (k, col) ∈ d -> length col = length (time_vector reader)) ->
  let d' := fold_left (fun d var => if exportable reader var
                                    then dict_set var (read_one reader var) d else d)
                      selected d in
  (exists col rest, d' = ("time", col) :: rest) /\
  NoDup d'.*1 /\
  (forall k col, (k, col) ∈ d' -> length col = length (time_vector reader)).
Proof.
  revert d. induction selected as [|var selected IH]; intros d Hhead Hnd Hlen.
  - simpl. auto.
  - simpl. destruct (exportable reader var) eqn:Hx; [|now apply IH].
    apply IH.
    + now apply dict_set_head.
    + now apply dict_set_nodup.
    + intros k col Hin. destruct (dict_set_entries _ _ _ _ Hin) as [Hd|[= -> ->]].
      * now apply (Hlen k).
      * unfold exportable in Hx. apply andb_true_iff in Hx as [_ Hx].
        now apply Nat.eqb_eq in Hx.
Qed.

Lemma export_loop_get (reader : reader V) (selected : list string)
    (var : string) (series : list V) :
  dict_get var
    (fold_left (fun d v => if exportable reader v
                           then dict_set v (read_one reader v) d else d)
               selected [("time", time_vector reader)]) = Some series <->
  (In var selected /\ exportable reader var = true /\
   series = read_one reader var) \/
  (var = "time" /\ ~ (In "time" selected /\ exportable reader "time" = true) /\
   series = time_vector reader).
Proof.
  induction selected as [|v selected IH] using rev_ind.
  - cbn [fold_left dict_get]. destruct (String.eqb_spec "time" var) as [<-|Hne].
    + split.
      * intros [= <-]. right. repeat split. intros [[] _].
      * intros [([] & _)|(_ & _ & ->)]. reflexivity.
    + split; [discriminate|]. intros [([] & _)|(-> & _)]. contradiction.
  - rewrite fold_left_app. cbn [fold_left]. setoid_rewrite in_app_iff.
    cbn [In].
    destruct (exportable reader v) eqn:Hx.
    + destruct (String.eqb_spec v var) as [->|Hne].
      * rewrite dict_get_set_eq. split.
        -- intros [= <-]. left. tauto.
        -- intros [(_ & _ & ->)|(-> & Hno & _)]; [reflexivity|].
           contradiction Hno. tauto.
      * rewrite dict_get_set_ne by exact Hne. rewrite IH. split.
        -- intros [(Hin & He & ->)|(-> & Hno & ->)]; [left; tauto|].
           right. repeat split. intros [[Hin|[Hv|[]]] He]; [tauto | congruence].
        -- intros [([Hin|[Hv|[]]] & He & ->)|(-> & Hno & ->)];
             [left; tauto | congruence |].
           right. repeat split. intros [Hin He]. apply Hno. tauto.
    + rewrite IH. split.
      * intros [(Hin & He & ->)|(-> & Hno & ->)]; [left; tauto|].
        right. repeat split. intros [[Hin|[Hv|[]]] He]; [tauto | congruence].
      * intros [([Hin|[Hv|[]]] & He & ->)|(-> & Hno & ->)];
          [left; tauto | congruence |].
        right. repeat split. intros [Hin He]. apply Hno. tauto.
Qed.

End ExportData.

(** X13: the dictionary built for the export is a well-formed frame: its
    first column is [time], no column name occurs twice, and every column
    has exactly as many entries as the time vector; without a time vector
    it consists of the empty time column alone, whatever is selected. *)
Theorem X13_export_frame {V : Type} `{Sample V}
    (reader : reader V) (selected : list string) :
  (exists col rest, export_data reader selected = ("time", col) :: rest) /\
  NoDup (export_data reader selected).*1 /\
  (forall k col, (k, col) ∈ export_data reader selected ->
     length col = length (time_vector reader)) /\
  (time_vector reader = [] -> export_data reader selected = [("time", [])]).
Proof.
  rewrite export_data_fold.
  destruct (export_loop_frame reader selected [("time", time_vector reader)])
    as (Hhead & Hnd & Hlen).
  - eauto.
  - simpl. apply NoDup_singleton.
  - intros k col Hin. apply list_elem_of_singleton in Hin. now injection Hin as -> ->.
  - repeat split; try assumption.
    clear Hhead Hnd Hlen. intros Htv. rewrite Htv.
    induction selected as [|var selected IH] using rev_ind; [reflexivity|].
    rewrite fold_left_app. cbn [fold_left].
    assert (exportable reader var = false) as ->; [|exact IH].
    unfold exportable. rewrite Htv. destruct (read_one reader var); reflexivity.
Qed.

Lemma X13_export_frame_witness :
  export_data der_reader ["der(x[1])-der(x[2])"; "der(x[1])"] =
  [("time", [0]%float); ("der(x[1])-der(x[2])", [2]%float)].
Proof.
  destruct (X13_export_frame der_reader ["der(x[1])-der(x[2])"; "der(x[1])"])
    as ((col & rest & Hd) & _).
  rewrite Hd. vm_compute in Hd. injection Hd as <- <-. reflexivity.
Defined.

(** X14: a column other than [time] is exported exactly for the selected
    names whose series is non-empty and as long as the time vector, and it
    holds the series read for that name; the [time] column holds the time
    vector unless a selected variable called [time] passes the same test
    and replaces it. *)
Theorem X14_export_columns {V : Type} `{Sample V}
    (reader : reader V) (selected : list string) (var : string)
    (series : list V) :
  dict_get var (export_data reader selected) = Some series <->
  (In var selected /\ exportable reader var = true /\
   series = read_one reader var) \/
  (var = "time" /\ ~ (In "time" selected /\ exportable reader "time" = true) /\
   series = time_vector reader).
Proof. rewrite export_data_fold. apply export_loop_get. Qed.

(** ** Plotting *)

Import PyQtGraphWidget.

Section Plotting.
Context {V : Type} `{Sample V}.

(** The abscissa chosen for a series is as long as the series. *)
Lemma plot_x_length (time_data y_data : list V) :
  xdata_length (plot_x time_data y_data) = length y_data.
Proof.
  unfold plot_x. destruct (truthy time_data && _)%bool eqn:Hc; [|reflexivity].
  apply andb_true_iff in Hc as [_ Hlen]. apply Nat.eqb_eq in Hlen.
  simpl. now symmetry.
Qed.

(** The plotting loop appends one curve per name with a non-empty series
    and counts them. *)
Lemma plot_loop (reader : reader V) (names : list string) (plots : list curve)
    (count : nat) :
  fold_left (fun st var_name =>
               plot_step (time_vector reader) st (var_name, read_one reader var_name))
            names (plots, count) =
  ((plots ++ imap (fun j var_name => curve_of reader (count + j) var_name)
                  (filter (fun var_name => Is_true (truthy (read_one reader var_name)))
                          names))%list,
   count + length (filter (fun var_name => Is_true (truthy (read_one reader var_name)))
                          names)).
Proof.
  revert plots count. induction names as [|var_name names IH]; intros plots count.
  - simpl. rewrite app_nil_r, Nat.add_0_r. reflexivity.
  - cbn [fold_left]. unfold plot_step at 2. cbn [fst snd].
    destruct (truthy (read_one reader var_name)) eqn:Hy.
    + rewrite filter_cons_True by (now rewrite Hy).
      rewrite IH. cbn [imap length]. rewrite <- app_assoc. cbn [app].
      rewrite Nat.add_0_r. f_equal; [|lia]. f_equal. f_equal.
      apply imap_ext. intros j x _. simpl. f_equal. lia.
    + rewrite filter_cons_False by (now rewrite Hy). apply IH.
Qed.

Lemma plot_variables_curves (self : widget) (reader : reader V)
    (variable_names : list string) :
  variable_names <> [] ->
  plot_variables self reader variable_names =
  let plotted := filter (fun var_name => Is_true (truthy (read_one reader var_name)))
                        variable_names in
  {| current_plots := imap (curve_of reader) plotted;
     status_label := "已绘制 " ++ pretty (length plotted) ++ " 个变量";
     bottom_label := if truthy (time_vector reader) then "时间 (s)" else "数据点" |}.
Proof.
  intros Hne. unfold plot_variables.
  destruct variable_names as [|n ns]; [contradiction|]. cbn [truthy].
  rewrite read_loop_map. cbn [snd read_variables fst].
  rewrite zip_with_map, fold_left_map. cbn [clear_plot current_plots].
  rewrite (plot_loop reader (n :: ns) [] 0). reflexivity.
Qed.

Lemma add_variable_curves (self : widget) (reader : reader V) (var_name : string) :
  current_plots (add_variable self reader var_name) =
  (plot_step (time_vector reader)
             (current_plots self, length (current_plots self))
             (var_name, read_one reader var_name)).1.
Proof.
  unfold add_variable, plot_step. rewrite read_one_single. cbn [list_index lookup].
  simpl. destruct (truthy (read_one reader var_name)); reflexivity.
Qed.

Lemma imap_lookup_curve (reader : reader V) (names : list string) (k : nat) (c : curve) :
  imap (curve_of reader) names !! k = Some c ->
  exists var_name, names !! k = Some var_name /\ c = curve_of reader k var_name.
Proof.
  rewrite list_lookup_imap. destruct (names !! k) as [var_name|]; simpl; [|discriminate].
  intros [= <-]. eauto.
Qed.

End Plotting.

(** X15: for a non-empty request [plot_variables] replaces the curves by
    one curve per requested name whose series is non-empty, in the order of
    the request: its ordinate is the series read for the name, its abscissa
    has the same length (the time vector when that fits, sample numbers
    otherwise) and its colour is that of its position; the status label
    counts the curves.  An empty request leaves the curves as they are. *)
Theorem X15_plot_variables_curves {V : Type} `{Sample V}
    (self : widget) (reader : reader V) (variable_names : list string) :
  (variable_names <> [] ->
   map curve_name (current_plots (plot_variables self reader variable_names)) =
     filter (fun var_name => Is_true (truthy (read_one reader var_name)))
            variable_names /\
   status_label (plot_variables self reader variable_names) =
     "已绘制 "
     ++ pretty (length (current_plots (plot_variables self reader variable_names)))
     ++ " 个变量" /\
   forall k c,
     current_plots (plot_variables self reader variable_names) !! k = Some c ->
     curve_y c = read_one reader (curve_name c) /\
     curve_y c <> [] /\
     curve_x c = plot_x (time_vector reader) (curve_y c) /\
     xdata_length (curve_x c) = length (curve_y c) /\
     curve_pen c = color_at k) /\
  current_plots (plot_variables self reader []) = current_plots self.
Proof.
  split; [|reflexivity]. intros Hne.
  rewrite (plot_variables_curves self reader variable_names Hne).
  cbn zeta. cbn [current_plots status_label].
  set (plotted := filter _ variable_names).
  split; [|split].
  - apply list_eq. intros k. rewrite list_lookup_fmap, list_lookup_imap.
    destruct (plotted !! k); reflexivity.
  - now rewrite length_imap.
  - intros k c Hk.
    destruct (imap_lookup_curve reader plotted k c Hk) as (var_name & Hn & ->).
    cbn [curve_of curve_y curve_x curve_pen curve_name].
    split; [reflexivity|].
    split; [|split; [reflexivity|split; [apply plot_x_length | reflexivity]]].
    apply list_elem_of_lookup_2 in Hn. apply list_elem_of_filter in Hn as [Hy _].
    destruct (read_one reader var_name); [contradiction | discriminate].
Qed.

Lemma X15_plot_variables_curves_witness :
  map curve_name
      (current_plots
         (plot_variables (clear_plot {| current_plots := []; status_label := "";
                                        bottom_label := "" |})
                         der_reader ["der(x[1])"; "der(x[1])-der(x[2])"])) =
  ["der(x[1])-der(x[2])"].
Proof.
  destruct (X15_plot_variables_curves
              (clear_plot {| current_plots := []; status_label := "";
                             bottom_label := "" |})
              der_reader ["der(x[1])"; "der(x[1])-der(x[2])"]) as [Hplot _].
  destruct Hplot as (Hnames & _); [discriminate|].
  rewrite Hnames. reflexivity.
Defined.

(** X16: every curve of the widget carries the palette colour of its
    position.  [clear_plot] and a [plot_variables] with a non-empty request
    establish this whatever the widget held; [add_variable] and
    [plot_variables] with any request keep it. *)
Theorem X16_curves_colored_by_position {V : Type} `{Sample V}
    (self : widget) (reader : reader V) (names : list string) (var_name : string) :
  colored_by_position (clear_plot self) /\
  (names <> [] -> colored_by_position (plot_variables self reader names)) /\
  (colored_by_position self ->
   colored_by_position (add_variable self reader var_name) /\
   colored_by_position (plot_variables self reader names)).
Proof.
  assert (Hplot : names <> [] ->
                  colored_by_position (plot_variables self reader names)).
  { intros Hne k c Hk. rewrite (plot_variables_curves self reader names Hne) in Hk.
    cbn zeta in Hk. cbn [current_plots] in Hk.
    destruct (imap_lookup_curve reader _ k c Hk) as (n & _ & ->). reflexivity. }
  split; [|split; [exact Hplot|]].
  - intros k c Hk. simpl in Hk. rewrite lookup_nil in Hk. discriminate.
  - intros Hcol. split.
    + intros k c Hk. rewrite add_variable_curves in Hk. unfold plot_step in Hk.
      cbn [fst snd] in Hk. destruct (truthy (read_one reader var_name)).
      * cbn [fst] in Hk. destruct (decide (k < length (current_plots self))) as [Hlt|Hge].
        -- rewrite lookup_app_l in Hk by exact Hlt. now apply Hcol.
        -- rewrite lookup_app_r in Hk by lia.
           destruct (k - length (current_plots self)) as [|m] eqn:Hm;
             [|simpl in Hk; discriminate].
           injection Hk as <-. simpl. f_equal. lia.
      * now apply Hcol.
    + destruct names as [|n names]; [exact Hcol | apply Hplot; discriminate].
Qed.

Lemma X16_curves_colored_by_position_witness :
  colored_by_position
    (add_variable (clear_plot {| current_plots := []; status_label := "";
                                 bottom_label := "" |})
                  der_reader "der(x[1])-der(x[2])") /\
  colored_by_position
    (plot_variables {| current_plots := []; status_label := "";
                       bottom_label := "" |}
                    der_reader ["der(x[1])-der(x[2])"]).
Proof.
  destruct (X16_curves_colored_by_position
              (clear_plot {| current_plots := []; status_label := "";
                             bottom_label := "" |})
              der_reader ["der(x[1])-der(x[2])"] "der(x[1])-der(x[2])")
    as (Hclear & _ & Hstep).
  destruct (X16_curves_colored_by_position
              {| current_plots := []; status_label := ""; bottom_label := "" |}
              der_reader ["der(x[1])-der(x[2])"] "der(x[1])-der(x[2])")
    as (_ & Hplot & _).
  split; [exact (proj1 (Hstep Hclear)) | apply Hplot; discriminate].
Defined.

Section Batch.
Context {V : Type} `{Sample V}.

Lemma add_loop_curves (reader : reader V) (names : list string) (self : widget) :
  current_plots (fold_left (fun w var_name => add_variable w reader var_name)
                           names self) =
  (fold_left (fun st var_name =>
                plot_step (time_vector reader) st (var_name, read_one reader var_name))
             names (current_plots self, length (current_plots self))).1.
Proof.
  revert self. induction names as [|var_name names IH]; intros self; [reflexivity|].
  cbn [fold_left]. rewrite IH, add_variable_curves.
  set (st := plot_step _ _ _).
  assert ((st.1, length st.1) = st) as ->; [|reflexivity].
  subst st. unfold plot_step. cbn [fst snd].
  destruct (truthy (read_one reader var_name)); [|reflexivity].
  cbn [fst]. f_equal. rewrite length_app. simpl. lia.
Qed.

End Batch.

(** X17: plotting a non-empty request in one go draws the same curves as
    clearing the plot and adding the requested names one after the other. *)
Theorem X17_plot_batch_is_successive_adds {V : Type} `{Sample V}
    (self : widget) (reader : reader V) (variable_names : list string) :
  variable_names <> [] ->
  current_plots (plot_variables self reader variable_names) =
  current_plots (fold_left (fun w var_name => add_variable w reader var_name)
                           variable_names (clear_plot self)).
Proof.
  intros Hne. rewrite add_loop_curves.
  rewrite (plot_variables_curves self reader variable_names Hne).
  cbn zeta. cbn [current_plots clear_plot length].
  now rewrite (plot_loop reader variable_names [] 0).
Qed.

Lemma X17_plot_batch_is_successive_adds_witness :
  current_plots
    (plot_variables {| current_plots := []; status_label := ""; bottom_label := "" |}
                    indexed_reader ["a[1]"; "zz"; "a[1]-b[1]"]) =
  current_plots
    (add_variable
       (add_variable
          (add_variable
             (clear_plot {| current_plots := []; status_label := "";
                            bottom_label := "" |})
             indexed_reader "a[1]")
          indexed_reader "zz")
       indexed_reader "a[1]-b[1]").
Proof.
  apply (X17_plot_batch_is_successive_adds
           {| current_plots := []; status_label := ""; bottom_label := "" |}
           indexed_reader ["a[1]"; "zz"; "a[1]-b[1]"]).
  discriminate.
Defined.

(** ** The selection *)

Lemma contains_name_spec (x : string) (l : list string) :
  contains_name x l = true <-> x ∈ l.
Proof.
  unfold contains_name. rewrite existsb_exists. split.
  - intros (y & Hy & Heq). apply String.eqb_eq in Heq. subst y.
    now apply list_elem_of_In.
  - intros Hin. exists x. split; [now apply list_elem_of_In | apply String.eqb_refl].
Qed.

Lemma list_remove_elem (x y : string) (l : list string) :
  y ∈ list_remove x l -> y ∈ l.
Proof.
  induction l as [|z l IH]; simpl; [tauto|].
  destruct (String.eqb_spec z x) as [->|Hne]; rewrite ?elem_of_cons; tauto.
Qed.

Lemma list_remove_other (x y : string) (l : list string) :
  x <> y -> y ∈ l -> y ∈ list_remove x l.
Proof.
  intros Hxy. induction l as [|z l IH]; simpl; [tauto|].
  destruct (String.eqb_spec z x) as [->|Hne]; rewrite ?elem_of_cons.
  - intros [->|Hin]; [contradiction | exact Hin].
  - intros [->|Hin]; [now left | right; now apply IH].
Qed.

Lemma list_remove_nodup (x : string) (l : list string) :
  NoDup l -> NoDup (list_remove x l) /\ x ∉ list_remove x l.
Proof.
  induction l as [|z l IH]; simpl; intros Hnd.
  - split; [exact Hnd | apply not_elem_of_nil].
  - apply NoDup_cons in Hnd as [Hz Hnd].
    destruct (String.eqb_spec z x) as [->|Hne]; [tauto|].
    destruct (IH Hnd) as [Hnd' Hx]. split.
    + apply NoDup_cons. split; [|exact Hnd'].
      intros Hin. apply Hz. now apply (list_remove_elem x).
    + rewrite elem_of_cons. intros [->|Hin]; [congruence | contradiction].
Qed.

Lemma list_remove_snoc (x : string) (l : list string) :
  x ∉ l -> list_remove x (l ++ [x]) = l.
Proof.
  induction l as [|z l IH]; simpl; intros Hx.
  - now rewrite String.eqb_refl.
  - rewrite not_elem_of_cons in Hx. destruct Hx as [Hne Hx].
    destruct (String.eqb_spec z x) as [->|_]; [congruence|].
    now rewrite (IH Hx).
Qed.

Lemma append_length (s t : string) :
  String.length (s ++ t) = String.length s + String.length t.
Proof.
  induction s as [|a s IH]; [reflexivity|].
  rewrite append_cons. simpl. now rewrite IH.
Qed.

Lemma prefixed_differs (prefix var : string) :
  prefix <> "" -> prefix ++ var <> var.
Proof.
  intros Hp Heq. apply (f_equal String.length) in Heq.
  rewrite append_length in Heq. destruct prefix; [contradiction|].
  simpl in Heq. lia.
Qed.

(** X18: the selection never holds a name twice.  Adding a name makes it
    selected and removing it makes it unselected, each keeping the list
    free of duplicates and the item list in step with it; removing a name
    right after adding it to a selection that did not have it gives the
    selection back. *)
Theorem X18_selection_without_duplicates (self : window) (var_name : string) :
  NoDup (selected_variables self) ->
  (NoDup (selected_variables (add_variable_to_selection self var_name)) /\
   var_name ∈ selected_variables (add_variable_to_selection self var_name)) /\
  (NoDup (selected_variables (remove_variable_from_selection self var_name)) /\
   var_name ∉ selected_variables (remove_variable_from_selection self var_name)) /\
  (selected_list self = selected_items (selected_variables self) ->
   selected_list (add_variable_to_selection self var_name) =
     selected_items (selected_variables (add_variable_to_selection self var_name)) /\
   selected_list (remove_variable_from_selection self var_name) =
     selected_items (selected_variables (remove_variable_from_selection self var_name))) /\
  (var_name ∉ selected_variables self ->
   selected_variables
     (remove_variable_from_selection (add_variable_to_selection self var_name) var_name) =
   selected_variables self).
Proof.
  intros Hnd. unfold add_variable_to_selection, remove_variable_from_selection.
  destruct (contains_name var_name (selected_variables self)) eqn:Hin; simpl.
  - apply contains_name_spec in Hin.
    destruct (list_remove_nodup var_name _ Hnd) as [Hnd' Hout].
    repeat split; try assumption; try reflexivity; try tauto.
  - assert (var_name ∉ selected_variables self) as Hout.
    { intros Hx. apply contains_name_spec in Hx. congruence. }
    repeat split; try assumption; try reflexivity.
    + apply NoDup_app. repeat split; [exact Hnd| |apply NoDup_singleton].
      intros x Hx Hs. apply list_elem_of_singleton in Hs. now subst.
    + rewrite elem_of_app, list_elem_of_singleton. now right.
    + intros _.
      assert (contains_name var_name (selected_variables self ++ [var_name]) = true)
        as -> by (apply contains_name_spec; rewrite elem_of_app, list_elem_of_singleton;
                  now right).
      simpl. now apply list_remove_snoc.
Qed.

Lemma X18_selection_without_duplicates_witness :
  selected_variables
    (remove_variable_from_selection
       (add_variable_to_selection (add_variable_to_selection init_window "a") "b")
       "b") = ["a"].
Proof.
  destruct (X18_selection_without_duplicates
              (add_variable_to_selection init_window "a") "b") as (_ & _ & _ & Hback).
  - apply NoDup_singleton.
  - apply Hback. intros Hin.
    apply (list_elem_of_singleton "b" "a") in Hin. discriminate.
Defined.

(** X19: the items of the selected list show the names behind a prefix,
    and the removal handler looks for the text of the item it is given: fed
    the item of a selected name, it leaves that name selected. *)
Theorem X19_item_text_does_not_remove (self : window) (var_name : string)
    (k : nat) :
  selected_list self = selected_items (selected_variables self) ->
  selected_variables self !! k = Some var_name ->
  exists item,
    selected_list self !! k = Some item /\
    var_name ∈ selected_variables (remove_variable_from_selection self item).
Proof.
  intros Hsync Hk. exists ("📊 " ++ var_name). split.
  - rewrite Hsync. unfold selected_items. now rewrite list_lookup_fmap, Hk.
  - unfold remove_variable_from_selection.
    assert (var_name ∈ selected_variables self) as Hin
      by (apply list_elem_of_lookup; eauto).
    destruct (contains_name _ _); [|exact Hin]. simpl.
    apply list_remove_other; [|exact Hin].
    apply prefixed_differs. discriminate.
Qed.

Lemma X19_item_text_does_not_remove_witness :
  exists item,
    selected_list (add_variable_to_selection init_window "a") !! 0 = Some item /\
    "a" ∈ selected_variables
            (remove_variable_from_selection
               (add_variable_to_selection init_window "a") item).
Proof.
  apply (X19_item_text_does_not_remove
           (add_variable_to_selection init_window "a") "a" 0); reflexivity.
Defined.

(** ** Decoded names *)

Lemma column_prefix_clean (c : nat) (rows : list string) :
  ~ In "000"%char (list_ascii_of_string (column_prefix c rows)) /\
  String.length (column_prefix c rows) <= length rows.
Proof.
  induction rows as [|row rows [IHnull IHlen]]; simpl; [split; [tauto | lia]|].
  destruct (String.get c row) as [ch|]; simpl; [|split; [tauto | lia]].
  destruct (Ascii.eqb_spec ch "000") as [->|Hne]; simpl; [split; [tauto | lia]|].
  split; [|lia]. intros [Heq|Hin]; [congruence | contradiction].
Qed.

(** X20: a decoded name never contains a null character and is never
    longer than the number of rows of the name matrix minus one. *)
Theorem X20_decoded_names_clean {V : Type} `{Sample V}
    (self self' : reader V) (d : raw V) (nm : list string) (key : string) :
  data self = Some d ->
  name d = Some nm ->
  _parse_keys_original self = Ok self' ->
  key ∈ keys self' ->
  ~ In "000"%char (list_ascii_of_string key) /\
  String.length key < length nm.
Proof.
  intros Hd Hn Hok Hkey. destruct nm as [|row0 rest].
  - unfold _parse_keys_original, data_item in Hok. rewrite Hd, Hn in Hok.
    discriminate.
  - rewrite (parse_keys_ok self d row0 rest Hd Hn) in Hok. injection Hok as <-.
    simpl keys in Hkey. rewrite decode_map in Hkey.
    apply list_elem_of_fmap in Hkey as (c & -> & _).
    destruct (column_prefix_clean c (visited_rows (row0 :: rest))) as [Hnull Hlen].
    split; [exact Hnull|]. unfold visited_rows in *.
    rewrite length_take in Hlen. cbn [length] in *. lia.
Qed.

Lemma X20_decoded_names_clean_witness :
  ~ In "000"%char (list_ascii_of_string "ace") /\ String.length "ace" < 4.
Proof.
  apply (X20_decoded_names_clean
           (reader_of_raw (raw_of_names ragged_names))
           (set_keys (reader_of_raw (raw_of_names ragged_names)) ["ace"; "bd"])
           (raw_of_names ragged_names) ragged_names "ace" eq_refl eq_refl eq_refl).
  simpl. left.
Defined.

(** ** Searching in the window *)

Lemma filter_ext_in {A} (P Q : A -> Prop) `{!forall x, Decision (P x)}
    `{!forall x, Decision (Q x)} (l : list A) :
  (forall x, x ∈ l -> P x <-> Q x) -> filter P l = filter Q l.
Proof.
  induction l as [|x l IH]; intros Hext; [reflexivity|].
  assert (filter P l = filter Q l) as Hrest
    by (apply IH; intros y Hy; apply Hext; now right).
  destruct (decide (P x)) as [Hp|Hp].
  - rewrite !filter_cons_True; [now rewrite Hrest | apply Hext; [left|exact Hp] | exact Hp].
  - rewrite !filter_cons_False; [exact Hrest | | exact Hp].
    intros Hq. apply Hp. apply Hext; [left | exact Hq].
Qed.

(** X21: a search with a non-blank pattern on a loaded reader shows every
    match exactly once: the list of each category holds the matches
    classified under it, in the order of the names, and the lengths of the
    seven lists add up to the number of matches the status bar reports.  A
    blank pattern, or a reader without names, changes nothing. *)
Theorem X21_search_shows_each_match_once {V : Type} `{Sample V}
    (reader : reader V) (search_text : string)
    (category_lists : gmap string (list string)) (status_bar : string) :
  let matched := ModelicaMatReader.search_variables reader (PyStr.strip search_text) in
  let view := ModelicaMatAnalyzer.search_variables reader search_text
                category_lists status_bar in
  (PyStr.strip search_text <> "" -> keys reader <> [] ->
   (forall c, In c category_labels ->
      view.1 !! c = Some (filter (fun var => category_of var = c) matched)) /\
   sum_list (map (fun c => length (default [] (view.1 !! c))) category_labels) =
     length matched /\
   view.2 = "搜索到 " ++ pretty (length matched) ++ " 个匹配变量") /\
  (PyStr.strip search_text = "" \/ keys reader = [] ->
   view = (category_lists, status_bar)).
Proof.
  intros matched view. subst view. unfold ModelicaMatAnalyzer.search_variables.
  fold matched. split.
  - intros Hpat Hkeys.
    destruct (String.eqb_spec (PyStr.strip search_text) "") as [|_]; [contradiction|].
    destruct (keys reader) as [|k ks] eqn:Hk; [contradiction|]. cbn [truthy negb orb].
    cbn [fst snd].
    assert (Hlists : forall c, In c category_labels ->
              ((fun cat_vars =>
                  filter (fun var => Is_true (contains_name var cat_vars)) matched)
               <$> get_variable_categories reader) !! c =
              Some (filter (fun var => category_of var = c) matched)).
    { intros c Hc. rewrite lookup_fmap, (categories_lookup reader c Hc). simpl.
      f_equal. apply filter_ext_in. intros var Hvar.
      rewrite Is_true_true, contains_name_spec, list_elem_of_filter.
      split; [tauto|]. intros Hcat. split; [exact Hcat|].
      subst matched. unfold ModelicaMatReader.search_variables in Hvar.
      now apply list_elem_of_filter in Hvar as [_ Hvar]. }
    split; [exact Hlists|]. split; [|reflexivity].
    rewrite <- (filter_count_total matched). f_equal.
    apply map_ext_in. intros c Hc. now rewrite (Hlists c Hc).
  - intros [Hblank|Hnone].
    + now rewrite Hblank.
    + rewrite Hnone. now rewrite orb_true_r.
Qed.

Lemma X21_search_shows_each_match_once_witness :
  (ModelicaMatAnalyzer.search_variables named_reader " volt " ∅ "").1 !! "electrical" =
    Some ["busVoltage"; "busVoltage"] /\
  (ModelicaMatAnalyzer.search_variables named_reader " volt " ∅ "").2 =
    "搜索到 2 个匹配变量".
Proof.
  destruct (X21_search_shows_each_match_once named_reader " volt " ∅ "")
    as [Hfound _].
  destruct Hfound as (Hlists & _ & Hstatus); [discriminate | discriminate |].
  split.
  - rewrite (Hlists "electrical") by (simpl; tauto). reflexivity.
  - rewrite Hstatus. reflexivity.
Defined.
